(** * Bus-Updater: the firmware-update command engine

    A shallow embedding of [Bus-Updater/src/update.cpp] (the dispatcher
    [handleMemoryRequests] with its policy predicates) and of
    [boot_descriptor_block.c] ([checkVectorTable], [checkApplication],
    [getAppVersion]).

    Conventions.
    - [unsigned int] is a 32-bit word, held in [Z] with the wrap-around
      written out by [to_u32]; [unsigned char] is [byte], read as a number
      by [u8].
    - The function-local statics of the dispatcher ([ramLocation],
      [deviceLocked], [lastError]), the global [ramBuffer], the flash, the
      outbound telegram buffer and the caller's [*sendTel] flag are threaded
      through a [State] record.
    - What the sources only declare (the IAP flash driver, [crc32], the
      linker symbols, the descriptor layout, a few constants) is a field of
      [Platform]; what the hardware answers during one call (the program
      pin, the unique-ID read) is a field of [Env]. *)

From Stdlib Require Import ZArith List Bool Lia.
From Stdlib Require Import Strings.Byte.
Import ListNotations.
Local Open Scope Z_scope.

(** ** Machine integers and bytes *)

(** Wrap-around of [unsigned int] arithmetic. *)
Definition to_u32 (x : Z) : Z := x mod 2 ^ 32.

(** The numeric value of an [unsigned char]. *)
Definition u8 (b : byte) : Z := Z.of_N (Byte.to_N b).

(** Storing an integer into an [unsigned char]: the low eight bits. *)
Definition to_byte (x : Z) : byte :=
  match Byte.of_N (Z.to_N (x mod 256)) with
  | Some b => b
  | None => x00
  end.

(** [p[i]] for a byte pointer [p] modelled as the list of bytes it points
    to; positions past the end of the list read as 0. *)
Definition byte_at (p : list byte) (i : nat) : Z := u8 (nth i p x00).

(** [streamToUIn32]: big-endian decoding by shifts. The operands are promoted
    to [int], the result is converted to [unsigned int]. *)
Definition streamToUIn32 (buffer : list byte) : Z :=
  to_u32 (Z.lor (Z.lor (Z.lor (Z.shiftl (byte_at buffer 0) 24)
                              (Z.shiftl (byte_at buffer 1) 16))
                       (Z.shiftl (byte_at buffer 2) 8))
                (byte_at buffer 3)).

(** The four bytes of an [unsigned int] as they sit in the memory of the
    little-endian Cortex-M0 target (what [memcpy (dst, &lastError, 4)]
    copies). *)
Definition u32_in_memory (v : Z) : list byte :=
  [ to_byte v; to_byte (Z.shiftr v 8); to_byte (Z.shiftr v 16);
    to_byte (Z.shiftr v 24) ].

(** ** Memory *)

(** The address space below RAM (flash): one byte per address. *)
Definition Flash : Type := Z -> byte.

(** The [n] bytes found at addresses [a], [a+1], ... (pointer arithmetic
    wraps at 32 bits). *)
Definition bytes_at (mem : Flash) (a n : Z) : list byte :=
  map (fun k => mem (to_u32 (a + Z.of_nat k))) (seq 0 (Z.to_nat n)).

(** A 32-bit load, little-endian as on the target. *)
Definition load_u32 (mem : Flash) (a : Z) : Z :=
  Z.lor (Z.lor (Z.lor (u8 (mem a))
                      (Z.shiftl (u8 (mem (to_u32 (a + 1)))) 8))
               (Z.shiftl (u8 (mem (to_u32 (a + 2)))) 16))
        (Z.shiftl (u8 (mem (to_u32 (a + 3)))) 24).

(** One byte stored at index [i] of a buffer (nothing happens past its
    end). *)
Fixpoint poke (buf : list byte) (i : nat) (b : byte) : list byte :=
  match buf, i with
  | [], _ => []
  | _ :: t, O => b :: t
  | h :: t, S j => h :: poke t j b
  end.

(** [memcpy (&buf[off], src, length src)]. *)
Fixpoint memcpy (buf : list byte) (off : nat) (src : list byte) : list byte :=
  match src with
  | [] => buf
  | b :: rest => memcpy (poke buf off b) (S off) rest
  end.

(** The outbound telegram [bcu->sendTelegram] is reached through a pointer:
    a byte per index. *)
Definition Telegram : Type := nat -> byte.

Definition tel_set (t : Telegram) (i : nat) (b : byte) : Telegram :=
  fun j => if Nat.eqb j i then b else t j.

(** [memcpy (bcu->sendTelegram + off, src, length src)]. *)
Fixpoint tel_memcpy (t : Telegram) (off : nat) (src : list byte) : Telegram :=
  match src with
  | [] => t
  | b :: rest => tel_memcpy (tel_set t off b) (S off) rest
  end.

(** ** Constants of update.cpp *)

Definition UPD_ERASE_SECTOR : Z := 0.
Definition UPD_SEND_DATA : Z := 1.
Definition UPD_PROGRAM : Z := 2.
Definition UPD_UPDATE_BOOT_DESC : Z := 3.
Definition UPD_REQ_DATA : Z := 10.
Definition UPD_GET_LAST_ERROR : Z := 20.
Definition UPD_SEND_LAST_ERROR : Z := 21.
Definition UPD_UNLOCK_DEVICE : Z := 30.
Definition UPD_REQUEST_UID : Z := 31.
Definition UPD_RESPONSE_UID : Z := 32.
Definition UPD_APP_VERSION_REQUEST : Z := 33.
Definition UPD_APP_VERSION_RESPONSE : Z := 34.
Definition UPD_SET_EMULATION : Z := 100.

Definition DEVICE_LOCKED : Z := 0x5AA55AA5.
Definition DEVICE_UNLOCKED : Z := to_u32 (Z.lnot DEVICE_LOCKED).

(** [enum UPD_Status]: the enumerators count up from 0x100. *)
Definition UDP_UNKONW_COMMAND : Z := 0x100.
Definition UDP_CRC_EROR : Z := 0x101.
Definition UPD_ADDRESS_NOT_ALLOWED_TO_FLASH : Z := 0x102.
Definition UPD_SECTOR_NOT_ALLOWED_TO_ERASE : Z := 0x103.
Definition UPD_RAM_BUFFER_OVERFLOW : Z := 0x104.
Definition UPD_WRONG_DESCRIPTOR_BLOCK : Z := 0x105.
Definition UPD_APPLICATION_NOT_STARTABLE : Z := 0x106.
Definition UPD_DEVICE_LOCKED : Z := 0x107.
Definition UPD_UID_MISSMATCH : Z := 0x108.
Definition UDP_NOT_IMPLEMENTED : Z := 0xFFFF.

(** [sizeof (ramBuffer)]. *)
Definition RAM_CAP : Z := 4096.

(** The two transport answers of the dispatcher. *)
Inductive PDU : Type := T_ACK_PDU | T_NACK_PDU.

(** ** What the sources only declare *)

(** The fields of [AppDescriptionBlock] that boot_descriptor_block.c reads. *)
Record AppDescriptionBlock : Type := {
  startAddress : Z;
  endAddress : Z;
  crc : Z;
  appVersionAddress : Z
}.

(** Everything update.cpp and boot_descriptor_block.c take from headers and
    from the linker that are not part of the sources at hand:
    - [IAP_SUCCESS], the success code of [IAP_Status] (iap.h); the driver's
      codes lie below the [UPD_Status] codes, which start at 0x100;
    - [__vectors_start__] and [_etext], two [extern const unsigned int]
      whose values the policy predicates read: by the comment above them
      the start of the updater's vector table and the end of the used
      flash area, here 32-bit words;
    - [FIRST_SECTOR], [BOOT_BLOCK_SIZE], [BOOT_BLOCK_PAGE]
      (boot_descriptor_block.h);
    - [crc32_impl] (crc.h): seed and bytes to checksum;
    - [descriptor_cast], what the cast [(AppDescriptionBlock * ) p] reads
      from the bytes at [p];
    - the IAP flash driver: each call returns a status and the flash it
      leaves behind. *)
Record Platform : Type := {
  IAP_SUCCESS : Z;
  __vectors_start__ : Z;
  _etext : Z;
  FIRST_SECTOR : Z;
  BOOT_BLOCK_SIZE : Z;
  BOOT_BLOCK_PAGE : Z;
  crc32_impl : Z -> list byte -> Z;
  descriptor_cast : list byte -> AppDescriptionBlock;
  iapEraseSector : Z -> Flash -> Z * Flash;
  iapErasePage : Z -> Flash -> Z * Flash;
  iapProgram : Z -> list byte -> Z -> Flash -> Z * Flash;
  IAP_SUCCESS_is_driver_code :
    (0 <=? IAP_SUCCESS) && (IAP_SUCCESS <? 0x100) = true;
  vectors_start_is_u32 :
    (0 <=? __vectors_start__) && (__vectors_start__ <? 2 ^ 32) = true;
  etext_is_u32 : (0 <=? _etext) && (_etext <? 2 ^ 32) = true
}.

(** [crc32 (seed, p, n)] with its [unsigned int] result. *)
Definition crc32 (P : Platform) (seed : Z) (bytes : list byte) : Z :=
  to_u32 (crc32_impl P seed bytes).

(** What the hardware answers during one call of the dispatcher:
    - [progPinStatus]: the value of [((BcuUpdate * ) bcu)->progPinStatus ()].
      The dispatcher takes [false] for "the operator has physical access":
      the program pin is asserted when the answer is [false] and deasserted
      when it is [true];
    - [iapReadUID]: the status of the unique-ID read and the bytes it left
      in the caller's buffer;
    - [ram_after_buffer]: the RAM that follows [ramBuffer], which
      [UPD_PROGRAM] reads when its count exceeds the buffer. *)
Record Env : Type := {
  progPinStatus : bool;
  iapReadUID : Z * list byte;
  ram_after_buffer : nat -> byte
}.

(** ** boot_descriptor_block.c *)

(** [checkVectorTable]: the eight words at [start] are added up in an
    [unsigned int]; the answer is [cs == 0]. *)
Definition checkVectorTable (mem : Flash) (start : Z) : Z :=
  let cs :=
    fold_left
      (fun cs i => to_u32 (cs + load_u32 mem (to_u32 (start + 4 * Z.of_nat i))))
      (seq 0 8) 0 in
  if cs =? 0 then 1 else 0.

(** [checkApplication]. *)
Definition checkApplication (P : Platform) (mem : Flash)
    (block : AppDescriptionBlock) : Z :=
  if startAddress block >? 0x5000 then 0
  else if endAddress block >? 0x100000 then 0
  else if startAddress block =? endAddress block then 0
  else
    let crc_ :=
      crc32 P 0xFFFFFFFF
        (bytes_at mem (startAddress block)
           (to_u32 (endAddress block - startAddress block))) in
    if crc_ =? crc block then checkVectorTable mem (startAddress block)
    else 0.

(** [getAppVersion]: the pointer stored in the descriptor. *)
Definition getAppVersion (block : AppDescriptionBlock) : Z :=
  to_u32 (appVersionAddress block).

(** ** update.cpp: address and sector policy *)

(** The macro [ADDRESS2SECTOR (a)] on an [unsigned int] argument. *)
Definition ADDRESS2SECTOR (a : Z) : Z := to_u32 (a + 4095) / 4096.

(** [sectorAllowedToErease]. *)
Definition sectorAllowedToErease (P : Platform) (sectorNumber : Z) : bool :=
  if sectorNumber =? 0 then false
  else negb ((sectorNumber >=? ADDRESS2SECTOR (__vectors_start__ P))
             && (sectorNumber <=? ADDRESS2SECTOR (_etext P))).

(** [addressAllowedToProgram]. *)
Definition addressAllowedToProgram (P : Platform) (start length : Z) : bool :=
  let end_ := to_u32 (start + length) in
  negb ((start >=? __vectors_start__ P) && (end_ <=? _etext P)).

(** ** update.cpp: the state of the engine *)

(** - [ramBuffer], [ramLocation], [deviceLocked], [lastError]: the global
      buffer and the statics of [handleMemoryRequests];
    - [flash]: the memory the IAP driver writes and [checkApplication] reads;
    - [sendTelegram], [sendTel]: the outbound telegram and the caller's flag
      that [*sendTel = ...] sets;
    - [pinInfo]: the level of [PIN_INFO], toggled on every call. *)
Record State : Type := mkState {
  ramBuffer : list byte;
  ramLocation : Z;
  deviceLocked : Z;
  lastError : Z;
  flash : Flash;
  sendTelegram : Telegram;
  sendTel : bool;
  pinInfo : bool
}.

Definition set_ramBuffer (v : list byte) (s : State) : State :=
  mkState v (ramLocation s) (deviceLocked s) (lastError s) (flash s)
    (sendTelegram s) (sendTel s) (pinInfo s).

Definition set_ramLocation (v : Z) (s : State) : State :=
  mkState (ramBuffer s) v (deviceLocked s) (lastError s) (flash s)
    (sendTelegram s) (sendTel s) (pinInfo s).

Definition set_deviceLocked (v : Z) (s : State) : State :=
  mkState (ramBuffer s) (ramLocation s) v (lastError s) (flash s)
    (sendTelegram s) (sendTel s) (pinInfo s).

Definition set_lastError (v : Z) (s : State) : State :=
  mkState (ramBuffer s) (ramLocation s) (deviceLocked s) v (flash s)
    (sendTelegram s) (sendTel s) (pinInfo s).

Definition set_flash (v : Flash) (s : State) : State :=
  mkState (ramBuffer s) (ramLocation s) (deviceLocked s) (lastError s) v
    (sendTelegram s) (sendTel s) (pinInfo s).

Definition set_sendTelegram (v : Telegram) (s : State) : State :=
  mkState (ramBuffer s) (ramLocation s) (deviceLocked s) (lastError s)
    (flash s) v (sendTel s) (pinInfo s).

Definition set_sendTel (v : bool) (s : State) : State :=
  mkState (ramBuffer s) (ramLocation s) (deviceLocked s) (lastError s)
    (flash s) (sendTelegram s) v (pinInfo s).

Definition set_pinInfo (v : bool) (s : State) : State :=
  mkState (ramBuffer s) (ramLocation s) (deviceLocked s) (lastError s)
    (flash s) (sendTelegram s) (sendTel s) v.

(** The state at reset: the statics hold their initialisers ([ramLocation]
    and [ramBuffer] are zero-initialised, [deviceLocked = DEVICE_LOCKED],
    [lastError = 0]); flash, telegram buffer and pin are whatever they are. *)
Definition boot (fl : Flash) (tel : Telegram) (pin : bool) : State :=
  mkState (repeat x00 (Z.to_nat RAM_CAP)) 0 DEVICE_LOCKED 0 fl tel false pin.

(** The [n] bytes of a frame from [data + off] on. *)
Definition frame_bytes (data : list byte) (off n : nat) : list byte :=
  map (fun k => nth (off + k)%nat data x00) (seq 0 n).

(** The [n] bytes that a reader of [ramBuffer] sees: the buffer, then the
    RAM behind it once [n] exceeds [sizeof (ramBuffer)]. *)
Definition ram_bytes (env : Env) (s : State) (n : Z) : list byte :=
  map (fun k =>
         if (k <? Z.to_nat RAM_CAP)%nat then nth k (ramBuffer s) x00
         else ram_after_buffer env (k - Z.to_nat RAM_CAP)%nat)
      (seq 0 (Z.to_nat n)).

(** [_prepareReturnTelegram]: the fixed header of a reply; the caller stores
    its [true] into [*sendTel]. *)
Definition _prepareReturnTelegram (count cmd : Z) (s : State) : State :=
  let t := sendTelegram s in
  let t := tel_set t 5 (to_byte (0x63 + count)) in
  let t := tel_set t 6 (to_byte 0x42) in
  let t := tel_set t 7 (to_byte (Z.lor 0x40 count)) in
  let t := tel_set t 8 (to_byte 0) in
  let t := tel_set t 9 (to_byte cmd) in
  set_sendTel true (set_sendTelegram t s).

(** ** update.cpp: the cases of the switch in [handleMemoryRequests] *)

(** The loop of the unlock case: all twelve positions are visited, each
    mismatch stores [UPD_UID_MISSMATCH]. *)
Definition uid_sweep (data uid : list byte) (s : State) : State :=
  fold_left
    (fun s i =>
       if negb (byte_at data (i + 3) =? byte_at uid i)
       then set_lastError UPD_UID_MISSMATCH s
       else s)
    (seq 0 12) s.

Definition case_UPD_UNLOCK_DEVICE (P : Platform) (env : Env)
    (data : list byte) (s : State) : State :=
  if negb (progPinStatus env) then
    set_lastError (IAP_SUCCESS P) (set_deviceLocked DEVICE_UNLOCKED s)
  else
    let s1 :=
      if IAP_SUCCESS P =? fst (iapReadUID env)
      then uid_sweep data (snd (iapReadUID env)) s
      else s in
    if negb (lastError s1 =? UPD_UID_MISSMATCH) then
      set_lastError (IAP_SUCCESS P) (set_deviceLocked DEVICE_UNLOCKED s1)
    else s1.

Definition case_UPD_REQUEST_UID (P : Platform) (env : Env) (s : State)
    : State :=
  if negb (progPinStatus env) then
    let s1 := set_lastError (to_u32 (fst (iapReadUID env))) s in
    if lastError s1 =? IAP_SUCCESS P then
      let s2 := _prepareReturnTelegram 12 UPD_RESPONSE_UID s1 in
      set_sendTelegram
        (tel_memcpy (sendTelegram s2) 10 (frame_bytes (snd (iapReadUID env)) 0 12))
        s2
    else s1
  else set_lastError UPD_DEVICE_LOCKED s.

Definition case_UPD_APP_VERSION_REQUEST (P : Platform) (data : list byte)
    (s : State) : State :=
  let block :=
    to_u32 (FIRST_SECTOR P - (1 + byte_at data 3) * BOOT_BLOCK_SIZE P) in
  let appversion :=
    getAppVersion (descriptor_cast P (bytes_at (flash s) block 256)) in
  if appversion <? 0x50000 then
    let s1 := _prepareReturnTelegram 12 UPD_APP_VERSION_RESPONSE s in
    set_lastError (IAP_SUCCESS P)
      (set_sendTelegram
         (tel_memcpy (sendTelegram s1) 10 (bytes_at (flash s) appversion 12))
         s1)
  else set_lastError UPD_APPLICATION_NOT_STARTABLE s.

Definition case_UPD_ERASE_SECTOR (P : Platform) (data : list byte)
    (s : State) : State :=
  let s1 :=
    if deviceLocked s =? DEVICE_UNLOCKED then
      if sectorAllowedToErease P (byte_at data 3) then
        let r := iapEraseSector P (byte_at data 3) (flash s) in
        set_lastError (to_u32 (fst r)) (set_flash (snd r) s)
      else set_lastError UPD_SECTOR_NOT_ALLOWED_TO_ERASE s
    else set_lastError UPD_DEVICE_LOCKED s in
  set_ramLocation 0 s1.

(** [count] is [data[0] & 0x0f]. The running [crc] of the source is a
    local that no later statement reads; it has no counterpart here. *)
Definition case_UPD_SEND_DATA (P : Platform) (data : list byte) (count : Z)
    (s : State) : State :=
  if deviceLocked s =? DEVICE_UNLOCKED then
    if to_u32 (ramLocation s + count) <? RAM_CAP then
      let s1 :=
        set_ramBuffer
          (memcpy (ramBuffer s) (Z.to_nat (ramLocation s))
             (frame_bytes data 3 (Z.to_nat count)))
          s in
      set_lastError (IAP_SUCCESS P)
        (set_ramLocation (to_u32 (ramLocation s + count)) s1)
    else set_lastError UPD_RAM_BUFFER_OVERFLOW s
  else set_lastError UPD_DEVICE_LOCKED s.

Definition case_UPD_PROGRAM (P : Platform) (env : Env) (data : list byte)
    (s : State) : State :=
  let s1 :=
    if deviceLocked s =? DEVICE_UNLOCKED then
      let count := streamToUIn32 (skipn 3 data) in
      let address := streamToUIn32 (skipn (3 + 4) data) in
      if addressAllowedToProgram P address count then
        let crc_ := crc32 P 0xFFFFFFFF (ram_bytes env s count) in
        if crc_ =? streamToUIn32 (skipn (3 + 4 + 4) data) then
          let r := iapProgram P address (ram_bytes env s count) count (flash s) in
          set_lastError (to_u32 (fst r)) (set_flash (snd r) s)
        else set_lastError UDP_CRC_EROR s
      else set_lastError UPD_ADDRESS_NOT_ALLOWED_TO_FLASH s
    else set_lastError UPD_DEVICE_LOCKED s in
  set_ramLocation 0 s1.

Definition case_UPD_UPDATE_BOOT_DESC (P : Platform) (env : Env)
    (data : list byte) (s : State) : State :=
  let s1 :=
    if deviceLocked s =? DEVICE_UNLOCKED then
      let crc_ := crc32 P 0xFFFFFFFF (ram_bytes env s 256) in
      let address :=
        to_u32 (FIRST_SECTOR P - (1 + byte_at data 7) * BOOT_BLOCK_SIZE P) in
      if crc_ =? streamToUIn32 (skipn 3 data) then
        if negb (checkApplication P (flash s) (descriptor_cast P (ramBuffer s)) =? 0)
        then
          let r := iapErasePage P (BOOT_BLOCK_PAGE P - byte_at data 7) (flash s) in
          let s2 := set_lastError (to_u32 (fst r)) (set_flash (snd r) s) in
          if lastError s2 =? IAP_SUCCESS P then
            let r2 := iapProgram P address (ram_bytes env s2 256) 256 (flash s2) in
            set_lastError (to_u32 (fst r2)) (set_flash (snd r2) s2)
          else s2
        else set_lastError UPD_APPLICATION_NOT_STARTABLE s
      else set_lastError UDP_CRC_EROR s
    else set_lastError UPD_DEVICE_LOCKED s in
  set_ramLocation 0 s1.

Definition case_UPD_REQ_DATA (s : State) : State :=
  if deviceLocked s =? DEVICE_UNLOCKED then set_lastError UDP_NOT_IMPLEMENTED s
  else set_lastError UPD_DEVICE_LOCKED s.

Definition case_UPD_GET_LAST_ERROR (P : Platform) (s : State) : State :=
  let s1 := _prepareReturnTelegram 4 UPD_SEND_LAST_ERROR s in
  let s2 :=
    set_sendTelegram
      (tel_memcpy (sendTelegram s1) 10 (u32_in_memory (lastError s1))) s1 in
  set_lastError (IAP_SUCCESS P) s2.

(** The switch over [data[2]]. [ENABLE_EMULATION] is not defined, so
    [UPD_SET_EMULATION] and the outbound-only codes fall to [default]. *)
Definition run_command (P : Platform) (env : Env) (data : list byte)
    (s : State) : State :=
  let count := Z.land (byte_at data 0) 0x0f in
  let op := byte_at data 2 in
  if op =? UPD_UNLOCK_DEVICE then case_UPD_UNLOCK_DEVICE P env data s
  else if op =? UPD_REQUEST_UID then case_UPD_REQUEST_UID P env s
  else if op =? UPD_APP_VERSION_REQUEST then case_UPD_APP_VERSION_REQUEST P data s
  else if op =? UPD_ERASE_SECTOR then case_UPD_ERASE_SECTOR P data s
  else if op =? UPD_SEND_DATA then case_UPD_SEND_DATA P data count s
  else if op =? UPD_PROGRAM then case_UPD_PROGRAM P env data s
  else if op =? UPD_UPDATE_BOOT_DESC then case_UPD_UPDATE_BOOT_DESC P env data s
  else if op =? UPD_REQ_DATA then case_UPD_REQ_DATA s
  else if op =? UPD_GET_LAST_ERROR then case_UPD_GET_LAST_ERROR P s
  else set_lastError UDP_UNKONW_COMMAND s.

(** [handleMemoryRequests (apciCmd, sendTel, data)]; [apciCmd] is never
    read. The result is the PDU returned and the state left behind. *)
Definition handleMemoryRequests (P : Platform) (env : Env)
    (data : list byte) (s : State) : PDU * State :=
  let s0 := set_pinInfo (negb (pinInfo s)) s in
  let s1 := run_command P env data s0 in
  if lastError s1 =? IAP_SUCCESS P then (T_ACK_PDU, s1) else (T_NACK_PDU, s1).

(** The states the device can be in: [boot], then one frame after another,
    each with whatever the hardware answers; between frames the caller may
    store into its [sendTel] flag. *)
Inductive reachable (P : Platform) : State -> Prop :=
| reach_boot : forall fl tel pin, reachable P (boot fl tel pin)
| reach_flag : forall b s,
    reachable P s -> reachable P (set_sendTel b s)
| reach_frame : forall env data s,
    reachable P s ->
    reachable P (snd (handleMemoryRequests P env data s)).

(** What every reachable state satisfies: the lock word holds one of its
    two values, the cursor stays inside the buffer, a locked device has
    staged nothing, and the buffer keeps its size. *)
Definition engine_inv (s : State) : Prop :=
  (deviceLocked s = DEVICE_LOCKED \/ deviceLocked s = DEVICE_UNLOCKED) /\
  0 <= ramLocation s < RAM_CAP /\
  (deviceLocked s = DEVICE_LOCKED -> ramLocation s = 0) /\
  length (ramBuffer s) = Z.to_nat RAM_CAP.

(** ** The claims of the specification, in its own words *)

(** Mathematical ceiling of [x / 4096], as the specification writes the
    sector of an address. *)
Definition sector_ceiling (x : Z) : Z :=
  if x mod 4096 =? 0 then x / 4096 else x / 4096 + 1.

(** "A sector [s] is updater-owned iff
    [ceil (UPDATER_START/4096) <= s <= ceil (UPDATER_END/4096)]". *)
Definition updater_owned_spec (P : Platform) (s : Z) : Prop :=
  sector_ceiling (__vectors_start__ P) <= s <= sector_ceiling (_etext P).

(** "[sectorErasable (s)] returns false if [s = 0] or if [s] is
    updater-owned, and true for every other [s]". *)
Definition sectorErasable_spec (P : Platform) (s : Z) : Prop :=
  (s = 0 \/ updater_owned_spec P s -> sectorAllowedToErease P s = false) /\
  (~ (s = 0 \/ updater_owned_spec P s) -> sectorAllowedToErease P s = true).

(** "[rangeProgrammable (a, n)] returns false iff [a >= UPDATER_START] and
    [a + n <= UPDATER_END]", the sum read as a number. *)
Definition rangeProgrammable_spec (P : Platform) (a n : Z) : Prop :=
  addressAllowedToProgram P a n = false <->
  (a >= __vectors_start__ P /\ a + n <= _etext P).

(** Some position among the first twelve where the payload differs from
    the unique ID. *)
Definition uid_mismatch (data uid : list byte) : Prop :=
  exists i : nat, (i < 12)%nat /\ byte_at data (i + 3) <> byte_at uid i.

(** The unlock rule as the specification words it, for one frame received
    with the program pin deasserted ([progPinStatus] answers true): any
    mismatch gives [UPD_UID_MISSMATCH] and a locked device stays locked; no
    mismatch unlocks with success. *)
Definition unlock_by_uid_spec (P : Platform) (env : Env) (data : list byte)
    (s : State) : Prop :=
  let s' := snd (handleMemoryRequests P env data s) in
  (uid_mismatch data (snd (iapReadUID env)) ->
   lastError s' = UPD_UID_MISSMATCH /\
   (deviceLocked s = DEVICE_LOCKED -> deviceLocked s' = DEVICE_LOCKED)) /\
  (~ uid_mismatch data (snd (iapReadUID env)) ->
   deviceLocked s' = DEVICE_UNLOCKED /\ lastError s' = IAP_SUCCESS P).

(** The sum of the eight vector-table words at [start], as a number. *)
Definition vector_table_sum (mem : Flash) (start : Z) : Z :=
  fold_right Z.add 0
    (map (fun i => load_u32 mem (to_u32 (start + 4 * Z.of_nat i))) (seq 0 8)).

(** The bytes that [checkApplication] hands to [crc32]: those from [a] on,
    their number [b - a] taken in 32-bit arithmetic. *)
Definition flash_range (mem : Flash) (a b : Z) : list byte :=
  bytes_at mem a (to_u32 (b - a)).

(** What [checkApplication] checks, test by test, the CRC taken over the
    bytes it reads. *)
Definition descriptor_valid (P : Platform) (mem : Flash)
    (block : AppDescriptionBlock) : Prop :=
  startAddress block <= 0x5000 /\
  endAddress block <= 0x100000 /\
  startAddress block <> endAddress block /\
  crc32 P 0xFFFFFFFF (flash_range mem (startAddress block) (endAddress block))
    = crc block /\
  vector_table_sum mem (startAddress block) mod 2 ^ 32 = 0.




(** "The command terminates by writing [lastError]": the value it leaves
    there does not depend on the value it found. *)
Definition overwrites_lastError (P : Platform) (env : Env)
    (data : list byte) (s : State) : Prop :=
  forall e : Z,
    lastError (snd (handleMemoryRequests P env data (set_lastError e s)))
    = lastError (snd (handleMemoryRequests P env data s)).

(** An unlock frame that arrives with the program pin deasserted and
    records no mismatch: the twelve positions agree, or the ID was not
    read. *)
Definition unlock_without_mismatch (P : Platform) (env : Env)
    (data : list byte) : Prop :=
  byte_at data 2 = UPD_UNLOCK_DEVICE /\
  progPinStatus env = true /\
  ~ (fst (iapReadUID env) = IAP_SUCCESS P /\
     uid_mismatch data (snd (iapReadUID env))).

(** Little-endian reading of four bytes. *)
Definition le_value (bs : list byte) : Z :=
  byte_at bs 0 + 2 ^ 8 * byte_at bs 1 + 2 ^ 16 * byte_at bs 2
  + 2 ^ 24 * byte_at bs 3.

(** Big-endian reading of four bytes. *)
Definition be_value (bs : list byte) : Z :=
  2 ^ 24 * byte_at bs 0 + 2 ^ 16 * byte_at bs 1 + 2 ^ 8 * byte_at bs 2
  + byte_at bs 3.

(** The opcodes that have a case in the switch. *)
Definition handled_opcodes : list Z :=
  [ UPD_UNLOCK_DEVICE; UPD_REQUEST_UID; UPD_APP_VERSION_REQUEST;
    UPD_ERASE_SECTOR; UPD_SEND_DATA; UPD_PROGRAM; UPD_UPDATE_BOOT_DESC;
    UPD_REQ_DATA; UPD_GET_LAST_ERROR ].

(** ** A concrete board, to run the model on frames *)

Module Demo.

(** A bitwise CRC-32 (reflected polynomial 0xEDB88320) standing in for
    crc.c. *)
Definition crc32_bit (c : Z) : Z :=
  if Z.testbit c 0 then Z.lxor (Z.shiftr c 1) 0xEDB88320 else Z.shiftr c 1.

Definition crc32_byte (c : Z) (b : byte) : Z :=
  let c := Z.lxor c (u8 b) in
  crc32_bit (crc32_bit (crc32_bit (crc32_bit
    (crc32_bit (crc32_bit (crc32_bit (crc32_bit c))))))).

Definition crc32_bytes (seed : Z) (bytes : list byte) : Z :=
  fold_left crc32_byte bytes seed.

(** Four consecutive little-endian words: start, end, crc, version
    pointer. *)
Definition cast (p : list byte) : AppDescriptionBlock :=
  {| startAddress := le_value p;
     endAddress := le_value (skipn 4 p);
     crc := le_value (skipn 8 p);
     appVersionAddress := le_value (skipn 12 p) |}.

(** A flash driver that always succeeds: erased bytes read 0xFF. *)
Definition erase (lo hi : Z) (fl : Flash) : Flash :=
  fun a => if (lo <=? a) && (a <? hi) then xff else fl a.

Definition program (rom : Z) (ram : list byte) (size : Z) (fl : Flash)
    : Flash :=
  fun a =>
    if (rom <=? a) && (a <? rom + size) then nth (Z.to_nat (a - rom)) ram x00
    else fl a.

(** The updater occupies 0x1000 .. 0x3FFF. *)
Definition platform : Platform :=
  {| IAP_SUCCESS := 0;
     __vectors_start__ := 0x1000;
     _etext := 0x3FFF;
     FIRST_SECTOR := 0x5000;
     BOOT_BLOCK_SIZE := 0x100;
     BOOT_BLOCK_PAGE := 0x4F;
     crc32_impl := crc32_bytes;
     descriptor_cast := cast;
     iapEraseSector := fun s fl => (0, erase (4096 * s) (4096 * s + 4096) fl);
     iapErasePage := fun p fl => (0, erase (256 * p) (256 * p + 256) fl);
     iapProgram := fun rom ram size fl => (0, program rom ram size fl);
     IAP_SUCCESS_is_driver_code := eq_refl;
     vectors_start_is_u32 := eq_refl;
     etext_is_u32 := eq_refl |}.

(** The same board with the word behind [_etext] reading 0xFFFFFFFF. *)
Definition platform_high_etext : Platform :=
  {| IAP_SUCCESS := 0;
     __vectors_start__ := 0x1000;
     _etext := 0xFFFFFFFF;
     FIRST_SECTOR := 0x5000;
     BOOT_BLOCK_SIZE := 0x100;
     BOOT_BLOCK_PAGE := 0x4F;
     crc32_impl := crc32_bytes;
     descriptor_cast := cast;
     iapEraseSector := fun s fl => (0, erase (4096 * s) (4096 * s + 4096) fl);
     iapErasePage := fun p fl => (0, erase (256 * p) (256 * p + 256) fl);
     iapProgram := fun rom ram size fl => (0, program rom ram size fl);
     IAP_SUCCESS_is_driver_code := eq_refl;
     vectors_start_is_u32 := eq_refl;
     etext_is_u32 := eq_refl |}.

(** The chip's unique ID, 16 bytes. *)
Definition chip_uid : list byte :=
  [ x11; x22; x33; x44; x55; x66; x77; x88; x99; xaa; xbb; xcc;
    x01; x02; x03; x04 ].

(** Program pin deasserted, unique-ID read successful. *)
Definition env_remote : Env :=
  {| progPinStatus := true;
     iapReadUID := (0, chip_uid);
     ram_after_buffer := fun _ => x00 |}.

(** Program pin deasserted, unique-ID read reporting the failure status 1
    (here even with the ID in the buffer). *)
Definition env_uid_read_fails : Env :=
  {| progPinStatus := true;
     iapReadUID := (1, chip_uid);
     ram_after_buffer := fun _ => x00 |}.

(** Program pin asserted. *)
Definition env_operator : Env :=
  {| progPinStatus := false;
     iapReadUID := (0, chip_uid);
     ram_after_buffer := fun _ => x00 |}.

(** Erased flash, an empty telegram buffer. *)
Definition at_reset : State := boot (fun _ => xff) (fun _ => x00) false.

(** A frame: count nibble in byte 0, opcode in byte 2, payload from byte 3. *)
Definition frame (count : byte) (op : byte) (payload : list byte) : list byte :=
  count :: x00 :: op :: payload.

(** [UPD_UNLOCK_DEVICE] carrying the right unique ID. *)
Definition unlock_right : list byte :=
  frame x0c x1e [ x11; x22; x33; x44; x55; x66; x77; x88; x99; xaa; xbb; xcc ].

(** [UPD_UNLOCK_DEVICE] with the last ID byte wrong. *)
Definition unlock_wrong : list byte :=
  frame x0c x1e [ x11; x22; x33; x44; x55; x66; x77; x88; x99; xaa; xbb; xcd ].

(** The device after one failed unlock attempt. *)
Definition after_wrong_unlock : State :=
  snd (handleMemoryRequests platform env_remote unlock_wrong at_reset).

(** The device unlocked by the operator. *)
Definition unlocked : State :=
  snd (handleMemoryRequests platform env_operator unlock_right at_reset).

(** Big-endian bytes of a word, as a bus client sends it. *)
Definition be32 (v : Z) : list byte :=
  [ to_byte (Z.shiftr v 24); to_byte (Z.shiftr v 16); to_byte (Z.shiftr v 8);
    to_byte v ].


(** [UPD_SEND_DATA] with five payload bytes. *)
Definition send_five : list byte :=
  frame x05 x01 [ xde; xad; xbe; xef; x2a ].

(** The unlocked device after staging the five bytes. *)
Definition staged_five : State :=
  snd (handleMemoryRequests platform env_remote send_five unlocked).

(** [UPD_PROGRAM]: count 5, address 0x4000, and the CRC of the staged
    bytes, right or with its lowest bit flipped. *)
Definition program_five (crc_ : Z) : list byte :=
  frame x00 x02 (be32 5 ++ be32 0x4000 ++ be32 crc_).

Definition crc_five : Z :=
  crc32 platform 0xFFFFFFFF [ xde; xad; xbe; xef; x2a ].

(** [UPD_ERASE_SECTOR] for sector 5, [UPD_GET_LAST_ERROR], and an opcode
    without a case. *)
Definition erase_five : list byte := frame x01 x00 [ x05 ].
Definition get_last_error : list byte := frame x00 x14 [].
Definition set_emulation : list byte := frame x01 x64 [ x01 ].

End Demo.

(** ** Frames in sequence *)

(** The caller's loop: frames are handled one after another, each with what
    the hardware answers at its moment; the PDUs are dropped. *)
Definition run_frames (P : Platform) (frames : list (Env * list byte))
    (s : State) : State :=
  fold_left (fun s f => snd (handleMemoryRequests P (fst f) (snd f) s))
    frames s.

(** The length nibble and the payload of an [UPD_SEND_DATA] frame. *)
Definition send_length (data : list byte) : Z :=
  Z.land (byte_at data 0) 0x0f.

Definition send_payload (data : list byte) : list byte :=
  frame_bytes data 3 (Z.to_nat (send_length data)).

(** The payloads of a run of frames, end to end. *)
Definition stream_payload (frames : list (Env * list byte)) : list byte :=
  concat (map (fun f => send_payload (snd f)) frames).

(** The three ways a frame can get at the flash: an erase of a sector the
    policy allows, a program of a range the policy allows with the right
    CRC of the staged bytes, a boot-descriptor update with the right CRC of
    a descriptor that validates. *)
Definition flash_write_admitted (P : Platform) (env : Env)
    (data : list byte) (s : State) : Prop :=
  (byte_at data 2 = UPD_ERASE_SECTOR /\
   sectorAllowedToErease P (byte_at data 3) = true) \/
  (byte_at data 2 = UPD_PROGRAM /\
   addressAllowedToProgram P (streamToUIn32 (skipn 7 data))
     (streamToUIn32 (skipn 3 data)) = true /\
   crc32 P 0xFFFFFFFF (ram_bytes env s (streamToUIn32 (skipn 3 data)))
   = streamToUIn32 (skipn 11 data)) \/
  (byte_at data 2 = UPD_UPDATE_BOOT_DESC /\
   crc32 P 0xFFFFFFFF (ram_bytes env s 256) = streamToUIn32 (skipn 3 data) /\
   descriptor_valid P (flash s) (descriptor_cast P (ramBuffer s))).

(** Two memories that hold the same bytes from [lo] up to [hi]. *)
Definition agree_on (m1 m2 : Flash) (lo hi : Z) : Prop :=
  forall a : Z, lo <= a < hi -> m1 a = m2 a.

(** More frames and boards to run the model on. *)
Module Session.

Definition request_uid : list byte := Demo.frame x00 x1f [].
Definition app_version : list byte := Demo.frame x01 x21 [ x00 ].
Definition req_data : list byte := Demo.frame x00 x0a [].
Definition erase_zero : list byte := Demo.frame x01 x00 [ x00 ].

(** [UPD_SEND_DATA] with three payload bytes. *)
Definition send_three : list byte := Demo.frame x03 x01 [ x01; x02; x03 ].

(** [UPD_PROGRAM] of five bytes into the updater, at 0x2000. *)
Definition program_updater : list byte :=
  Demo.frame x00 x02 (Demo.be32 5 ++ Demo.be32 0x2000 ++ Demo.be32 Demo.crc_five).

(** [UPD_UPDATE_BOOT_DESC] for slot 0 with a CRC that is not the one of the
    staged block. *)
Definition boot_desc_bad_crc : list byte :=
  Demo.frame x00 x03 (Demo.be32 0 ++ [ x00 ]).

(** Flash whose descriptor slot 0 (at 0x4F00) points to version bytes at
    0x4800, where the twelve bytes 0x30 .. 0x3B are stored. *)
Definition versioned_flash : Flash :=
  fun a =>
    if a =? 0x4F0C then x00
    else if a =? 0x4F0D then x48
    else if a =? 0x4F0E then x00
    else if a =? 0x4F0F then x00
    else if (0x4800 <=? a) && (a <? 0x480C) then to_byte (0x30 + (a - 0x4800))
    else xff.

Definition versioned : State :=
  boot versioned_flash (fun _ => x00) false.

(** Memory with a vector table of eight zero words at 0x4000 and nothing
    else, and the same with one more byte set far behind it. *)
Definition app_flash : Flash :=
  fun a => if (0x4000 <=? a) && (a <? 0x4020) then x00 else xff.

Definition app_flash_touched : Flash :=
  fun a => if a =? 0x6000 then x00 else app_flash a.

(** A descriptor for an application from 0x4000 to 0x4040 with the CRC its
    bytes have in [app_flash]. *)
Definition app_block : AppDescriptionBlock :=
  {| startAddress := 0x4000;
     endAddress := 0x4040;
     crc := crc32 Demo.platform 0xFFFFFFFF (bytes_at app_flash 0x4000 0x40);
     appVersionAddress := 0x4030 |}.

(** A staging buffer that starts with [app_block] laid out as four
    little-endian words, on an unlocked device whose flash is [app_flash]. *)
Definition desc_buffer : list byte :=
  u32_in_memory (startAddress app_block)
  ++ u32_in_memory (endAddress app_block)
  ++ u32_in_memory (crc app_block)
  ++ u32_in_memory (appVersionAddress app_block)
  ++ repeat x00 (Z.to_nat RAM_CAP - 16).

Definition with_descriptor : State :=
  mkState desc_buffer 0 DEVICE_UNLOCKED 0 app_flash (fun _ => x00) false false.

(** [UPD_UPDATE_BOOT_DESC] for slot 0 with the CRC of the staged block. *)
Definition boot_desc_good : list byte :=
  Demo.frame x00 x03
    (Demo.be32 (crc32 Demo.platform 0xFFFFFFFF (firstn 256 desc_buffer))
     ++ [ x00 ]).

End Session.

(** A board and a descriptor for the corner where the end of an
    application lies below its start. *)
Module Corner.

(** A checksum that only tells the empty byte sequence (0) from any other
    (1). *)
Definition crc_nonempty (seed : Z) (bytes : list byte) : Z :=
  match bytes with
  | [] => 0
  | _ :: _ => 1
  end.

(** The demo board with that checksum. *)
Definition platform : Platform :=
  {| IAP_SUCCESS := 0;
     __vectors_start__ := 0x1000;
     _etext := 0x3FFF;
     FIRST_SECTOR := 0x5000;
     BOOT_BLOCK_SIZE := 0x100;
     BOOT_BLOCK_PAGE := 0x4F;
     crc32_impl := crc_nonempty;
     descriptor_cast := Demo.cast;
     iapEraseSector :=
       fun s fl => (0, Demo.erase (4096 * s) (4096 * s + 4096) fl);
     iapErasePage := fun p fl => (0, Demo.erase (256 * p) (256 * p + 256) fl);
     iapProgram := fun rom ram size fl => (0, Demo.program rom ram size fl);
     IAP_SUCCESS_is_driver_code := eq_refl;
     vectors_start_is_u32 := eq_refl;
     etext_is_u32 := eq_refl |}.



End Corner.

(** * Proofs *)

Arguments to_u32 : simpl never.
Arguments to_byte : simpl never.
Arguments u8 : simpl never.
Arguments byte_at : simpl never.
Arguments streamToUIn32 : simpl never.
Arguments crc32 : simpl never.
Arguments bytes_at : simpl never.
Arguments ram_bytes : simpl never.
Arguments frame_bytes : simpl never.
Arguments checkApplication : simpl never.
Arguments sectorAllowedToErease : simpl never.
Arguments addressAllowedToProgram : simpl never.
Arguments uid_sweep : simpl never.

(** ** Words and bytes *)

Lemma to_u32_range (x : Z) : 0 <= to_u32 x < 2 ^ 32.
Proof. unfold to_u32. apply Z.mod_pos_bound. lia. Qed.

Lemma to_u32_small (x : Z) : 0 <= x < 2 ^ 32 -> to_u32 x = x.
Proof. intros H. unfold to_u32. apply Z.mod_small. exact H. Qed.

Lemma u8_range (b : byte) : 0 <= u8 b < 256.
Proof.
  unfold u8. pose proof (Byte.to_N_bounded b) as H. lia.
Qed.

Lemma byte_at_range (p : list byte) (i : nat) : 0 <= byte_at p i < 256.
Proof. unfold byte_at. apply u8_range. Qed.

Lemma u8_to_byte (x : Z) : u8 (to_byte x) = x mod 256.
Proof.
  unfold u8, to_byte.
  assert (Hr : 0 <= x mod 256 < 256) by (apply Z.mod_pos_bound; lia).
  destruct (Byte.of_N (Z.to_N (x mod 256))) as [b|] eqn:E.
  - apply Byte.to_of_N in E. rewrite E. lia.
  - apply Byte.of_N_None_iff in E. lia.
Qed.

Lemma IAP_SUCCESS_range (P : Platform) : 0 <= IAP_SUCCESS P < 0x100.
Proof.
  pose proof (IAP_SUCCESS_is_driver_code P) as H.
  apply andb_true_iff in H. destruct H as [H1 H2].
  apply Z.leb_le in H1. apply Z.ltb_lt in H2. lia.
Qed.

Lemma vectors_start_range (P : Platform) : 0 <= __vectors_start__ P < 2 ^ 32.
Proof.
  pose proof (vectors_start_is_u32 P) as H.
  apply andb_true_iff in H. destruct H as [H1 H2].
  apply Z.leb_le in H1. apply Z.ltb_lt in H2. lia.
Qed.

Lemma etext_range (P : Platform) : 0 <= _etext P < 2 ^ 32.
Proof.
  pose proof (etext_is_u32 P) as H.
  apply andb_true_iff in H. destruct H as [H1 H2].
  apply Z.leb_le in H1. apply Z.ltb_lt in H2. lia.
Qed.

(** ** Address and sector policy *)

Lemma sector_ceiling_eq (x : Z) : sector_ceiling x = (x + 4095) / 4096.
Proof.
  unfold sector_ceiling.
  pose proof (Z.div_mod x 4096 ltac:(lia)) as Hdm.
  pose proof (Z.mod_pos_bound x 4096 ltac:(lia)) as Hb.
  destruct (x mod 4096 =? 0) eqn:E.
  - apply Z.eqb_eq in E.
    apply Z.div_unique with (r := 4095); lia.
  - apply Z.eqb_neq in E.
    apply Z.div_unique with (r := x mod 4096 - 1); lia.
Qed.

(** Below the last 4095 addresses the macro is the ceiling. *)
Lemma ADDRESS2SECTOR_ceiling (a : Z) :
  0 <= a <= 2 ^ 32 - 4096 -> ADDRESS2SECTOR a = sector_ceiling a.
Proof.
  intros H. unfold ADDRESS2SECTOR.
  rewrite to_u32_small by lia. symmetry. apply sector_ceiling_eq.
Qed.

Lemma sectorAllowedToErease_false (P : Platform) (s : Z) :
  sectorAllowedToErease P s = false <->
  s = 0 \/
  ADDRESS2SECTOR (__vectors_start__ P) <= s <= ADDRESS2SECTOR (_etext P).
Proof.
  unfold sectorAllowedToErease.
  destruct (s =? 0) eqn:E0.
  - apply Z.eqb_eq in E0. split; auto.
  - apply Z.eqb_neq in E0.
    rewrite negb_false_iff, andb_true_iff, Z.geb_le, Z.leb_le.
    split; [intros [? ?]; right; lia | intros [? | ?]; [contradiction | lia]].
Qed.

(** The answer of [sectorAllowedToErease] in terms of the macro
    [ADDRESS2SECTOR], and the macro as a ceiling for a symbol value of at
    most [2^32 - 4096]. *)
Lemma sectorAllowedToErease_bounds (P : Platform) (s : Z) :
  let lo := ADDRESS2SECTOR (__vectors_start__ P) in
  let hi := ADDRESS2SECTOR (_etext P) in
  (s = 0 \/ lo <= s <= hi -> sectorAllowedToErease P s = false) /\
  (~ (s = 0 \/ lo <= s <= hi) -> sectorAllowedToErease P s = true) /\
  (__vectors_start__ P <= 2 ^ 32 - 4096 ->
   lo = sector_ceiling (__vectors_start__ P)) /\
  (_etext P <= 2 ^ 32 - 4096 -> hi = sector_ceiling (_etext P)) /\
  (__vectors_start__ P <= 2 ^ 32 - 4096 -> _etext P <= 2 ^ 32 - 4096 ->
   sectorErasable_spec P s).
Proof.
  intros lo hi.
  pose proof (vectors_start_range P) as Hv.
  pose proof (etext_range P) as He.
  pose proof (sectorAllowedToErease_false P s) as Hf. fold lo hi in Hf.
  assert (Htrue : ~ (s = 0 \/ lo <= s <= hi) -> sectorAllowedToErease P s = true).
  { intros Hn. destruct (sectorAllowedToErease P s) eqn:E; [reflexivity|].
    exfalso. apply Hn. apply Hf. reflexivity. }
  split; [apply Hf|]. split; [exact Htrue|].
  split; [intros H; apply ADDRESS2SECTOR_ceiling; lia|].
  split; [intros H; apply ADDRESS2SECTOR_ceiling; lia|].
  intros H1 H2. unfold sectorErasable_spec, updater_owned_spec.
  rewrite <- (ADDRESS2SECTOR_ceiling (__vectors_start__ P)) by lia.
  rewrite <- (ADDRESS2SECTOR_ceiling (_etext P)) by lia.
  fold lo hi. split; [apply Hf | exact Htrue].
Qed.

(** C5. With the two updater symbols holding flash addresses (the start of
    the vector table and the end of the used flash area, neither within
    the last 4095 bytes of the 32-bit address space), [sectorAllowedToErease]
    answers false for sector 0 and for every sector [s] with
    [ceil (__vectors_start__ / 4096) <= s <= ceil (_etext / 4096)], and true
    for every other sector. *)
Theorem sectorAllowedToErease_policy (P : Platform) (s : Z) :
  __vectors_start__ P <= 2 ^ 32 - 4096 ->
  _etext P <= 2 ^ 32 - 4096 ->
  (s = 0 \/
   sector_ceiling (__vectors_start__ P) <= s <= sector_ceiling (_etext P) ->
   sectorAllowedToErease P s = false) /\
  (~ (s = 0 \/
      sector_ceiling (__vectors_start__ P) <= s <= sector_ceiling (_etext P)) ->
   sectorAllowedToErease P s = true) /\
  sectorErasable_spec P s.
Proof.
  intros Hlo Hhi.
  pose proof (vectors_start_range P) as Hv.
  pose proof (etext_range P) as He.
  pose proof (sectorAllowedToErease_false P s) as Hf.
  rewrite (ADDRESS2SECTOR_ceiling (__vectors_start__ P)) in Hf by lia.
  rewrite (ADDRESS2SECTOR_ceiling (_etext P)) in Hf by lia.
  assert (Hfalse :
            s = 0 \/
            sector_ceiling (__vectors_start__ P) <= s
            <= sector_ceiling (_etext P) ->
            sectorAllowedToErease P s = false) by apply Hf.
  assert (Htrue :
            ~ (s = 0 \/
               sector_ceiling (__vectors_start__ P) <= s
               <= sector_ceiling (_etext P)) ->
            sectorAllowedToErease P s = true).
  { intros Hn. destruct (sectorAllowedToErease P s); [reflexivity|].
    exfalso. apply Hn. apply Hf. reflexivity. }
  split; [exact Hfalse|]. split; [exact Htrue|].
  unfold sectorErasable_spec, updater_owned_spec. split; assumption.
Qed.

(** C5, witness: on the demo board, whose updater occupies 0x1000 to
    0x3FFF, sector 2 may not be erased and sector 5 may. *)
Lemma sectorAllowedToErease_policy_witness :
  sectorAllowedToErease Demo.platform 2 = false /\
  sectorAllowedToErease Demo.platform 5 = true.
Proof.
  split.
  - destruct (sectorAllowedToErease_policy Demo.platform 2) as [H _];
      [vm_compute; discriminate | vm_compute; discriminate |].
    apply H. right. vm_compute. split; discriminate.
  - destruct (sectorAllowedToErease_policy Demo.platform 5) as [_ [H _]];
      [vm_compute; discriminate | vm_compute; discriminate |].
    apply H. intros [E | [_ E]]; [discriminate|].
    vm_compute in E. apply E. reflexivity.
Defined.

(** Within the last 4095 bytes of the address space the sum in the macro
    wraps: were the word at [_etext] 0xFFFFFFFF, the upper sector bound
    would be 0 and sector 2 could be erased. *)
Lemma sectorErasable_spec_fails :
  ~ sectorErasable_spec Demo.platform_high_etext 2.
Proof.
  intros [H _].
  assert (Hown : updater_owned_spec Demo.platform_high_etext 2).
  { unfold updater_owned_spec. vm_compute. split; discriminate. }
  specialize (H (or_intror Hown)). vm_compute in H. discriminate.
Qed.

Lemma addressAllowedToProgram_false (P : Platform) (a n : Z) :
  addressAllowedToProgram P a n = false <->
  (a >= __vectors_start__ P /\ to_u32 (a + n) <= _etext P).
Proof.
  unfold addressAllowedToProgram.
  rewrite negb_false_iff, andb_true_iff, Z.geb_le, Z.leb_le.
  split; intros [? ?]; split; lia.
Qed.

(** C4 (as amended). For every pair of 32-bit inputs [(a, n)],
    [addressAllowedToProgram] answers false exactly when
    [a >= UPDATER_START] and the end [a + n], computed in 32-bit
    arithmetic, is [<= UPDATER_END]. When [a + n] does not exceed 32 bits
    this is containment of the range in the updater reservation; every
    range wholly inside the reservation is refused; a range that starts
    below the reservation is permitted whatever its length. *)
Theorem addressAllowedToProgram_policy (P : Platform) (a n : Z) :
  0 <= a < 2 ^ 32 -> 0 <= n < 2 ^ 32 ->
  (addressAllowedToProgram P a n = false <->
   (a >= __vectors_start__ P /\ to_u32 (a + n) <= _etext P)) /\
  (a + n < 2 ^ 32 -> rangeProgrammable_spec P a n) /\
  (a >= __vectors_start__ P /\ a + n <= _etext P ->
   addressAllowedToProgram P a n = false) /\
  (a < __vectors_start__ P -> addressAllowedToProgram P a n = true).
Proof.
  intros Ha Hn.
  pose proof (etext_range P) as He.
  pose proof (addressAllowedToProgram_false P a n) as Hf.
  split; [exact Hf|]. split; [|split].
  - intros Hs. unfold rangeProgrammable_spec.
    rewrite to_u32_small in Hf by lia. exact Hf.
  - intros [H1 H2]. apply Hf. rewrite to_u32_small by lia. lia.
  - intros Hlt. destruct (addressAllowedToProgram P a n); [reflexivity|].
    destruct Hf as [Hf _]. specialize (Hf eq_refl). lia.
Qed.

(** C4, witness: 256 bytes at 0x2000 lie inside the demo updater and are
    refused. *)
Lemma addressAllowedToProgram_policy_witness :
  addressAllowedToProgram Demo.platform 0x2000 0x100 = false.
Proof.
  destruct (addressAllowedToProgram_policy Demo.platform 0x2000 0x100)
    as [_ [_ [H _]]]; [lia | lia |].
  apply H. vm_compute. split; discriminate.
Defined.

(** C4, counterexample: from 0x2000 with length 0xFFFFF000 the end wraps
    to 0x1000; the range reaches far beyond the updater, and is refused. *)
Lemma rangeProgrammable_spec_fails :
  ~ rangeProgrammable_spec Demo.platform 0x2000 0xFFFFF000.
Proof.
  intros [H _].
  assert (E : addressAllowedToProgram Demo.platform 0x2000 0xFFFFF000 = false)
    by (vm_compute; reflexivity).
  destruct (H E) as [_ H2]. vm_compute in H2. apply H2. reflexivity.
Qed.

(** ** The dispatcher, case by case *)

Ltac st_simpl :=
  cbn [ramBuffer ramLocation deviceLocked lastError flash sendTelegram sendTel
       pinInfo set_ramBuffer set_ramLocation set_deviceLocked set_lastError
       set_flash set_sendTelegram set_sendTel set_pinInfo fst snd] in *.

Lemma handle_state (P : Platform) (env : Env) (data : list byte) (s : State) :
  snd (handleMemoryRequests P env data s)
  = run_command P env data (set_pinInfo (negb (pinInfo s)) s).
Proof.
  unfold handleMemoryRequests.
  destruct (lastError _ =? IAP_SUCCESS P); reflexivity.
Qed.

Lemma handle_pdu (P : Platform) (env : Env) (data : list byte) (s : State) :
  fst (handleMemoryRequests P env data s)
  = if lastError (snd (handleMemoryRequests P env data s)) =? IAP_SUCCESS P
    then T_ACK_PDU else T_NACK_PDU.
Proof.
  unfold handleMemoryRequests.
  destruct (lastError _ =? IAP_SUCCESS P) eqn:E; cbn [fst snd]; rewrite E;
    reflexivity.
Qed.

(** A stored [UPD_Status] code is never the driver's success code. *)
Lemma handle_nack (P : Platform) (env : Env) (data : list byte) (s : State) :
  0x100 <= lastError (snd (handleMemoryRequests P env data s)) ->
  fst (handleMemoryRequests P env data s) = T_NACK_PDU.
Proof.
  intros H. rewrite handle_pdu.
  pose proof (IAP_SUCCESS_range P) as Hr.
  destruct (Z.eqb_spec (lastError (snd (handleMemoryRequests P env data s)))
              (IAP_SUCCESS P)) as [E|E]; [lia | reflexivity].
Qed.

Lemma handle_ack (P : Platform) (env : Env) (data : list byte) (s : State) :
  lastError (snd (handleMemoryRequests P env data s)) = IAP_SUCCESS P ->
  fst (handleMemoryRequests P env data s) = T_ACK_PDU.
Proof.
  intros H. rewrite handle_pdu, H, Z.eqb_refl. reflexivity.
Qed.

Lemma run_UNLOCK_DEVICE P env data s :
  byte_at data 2 = UPD_UNLOCK_DEVICE ->
  run_command P env data s = case_UPD_UNLOCK_DEVICE P env data s.
Proof. intros H. unfold run_command. rewrite H. reflexivity. Qed.

Lemma run_REQUEST_UID P env data s :
  byte_at data 2 = UPD_REQUEST_UID ->
  run_command P env data s = case_UPD_REQUEST_UID P env s.
Proof. intros H. unfold run_command. rewrite H. reflexivity. Qed.

Lemma run_APP_VERSION_REQUEST P env data s :
  byte_at data 2 = UPD_APP_VERSION_REQUEST ->
  run_command P env data s = case_UPD_APP_VERSION_REQUEST P data s.
Proof. intros H. unfold run_command. rewrite H. reflexivity. Qed.

Lemma run_ERASE_SECTOR P env data s :
  byte_at data 2 = UPD_ERASE_SECTOR ->
  run_command P env data s = case_UPD_ERASE_SECTOR P data s.
Proof. intros H. unfold run_command. rewrite H. reflexivity. Qed.

Lemma run_SEND_DATA P env data s :
  byte_at data 2 = UPD_SEND_DATA ->
  run_command P env data s
  = case_UPD_SEND_DATA P data (Z.land (byte_at data 0) 0x0f) s.
Proof. intros H. unfold run_command. rewrite H. reflexivity. Qed.

Lemma run_PROGRAM P env data s :
  byte_at data 2 = UPD_PROGRAM ->
  run_command P env data s = case_UPD_PROGRAM P env data s.
Proof. intros H. unfold run_command. rewrite H. reflexivity. Qed.

Lemma run_UPDATE_BOOT_DESC P env data s :
  byte_at data 2 = UPD_UPDATE_BOOT_DESC ->
  run_command P env data s = case_UPD_UPDATE_BOOT_DESC P env data s.
Proof. intros H. unfold run_command. rewrite H. reflexivity. Qed.

Lemma run_REQ_DATA P env data s :
  byte_at data 2 = UPD_REQ_DATA ->
  run_command P env data s = case_UPD_REQ_DATA s.
Proof. intros H. unfold run_command. rewrite H. reflexivity. Qed.

Lemma run_GET_LAST_ERROR P env data s :
  byte_at data 2 = UPD_GET_LAST_ERROR ->
  run_command P env data s = case_UPD_GET_LAST_ERROR P s.
Proof. intros H. unfold run_command. rewrite H. reflexivity. Qed.

Lemma run_default P env data s :
  ~ In (byte_at data 2) handled_opcodes ->
  run_command P env data s = set_lastError UDP_UNKONW_COMMAND s.
Proof.
  intros H. unfold run_command.
  repeat match goal with
  | |- context [byte_at data 2 =? ?c] =>
      destruct (Z.eqb_spec (byte_at data 2) c) as [E|_];
      [exfalso; apply H; rewrite E; unfold handled_opcodes; simpl; tauto|]
  end.
  reflexivity.
Qed.

(** ** The descriptor validator *)

Lemma wrapped_sum (f : nat -> Z) (l : list nat) (c : Z) :
  fold_left (fun cs i => to_u32 (cs + f i)) l (to_u32 c)
  = to_u32 (c + fold_right Z.add 0 (map f l)).
Proof.
  revert c. induction l as [|i l IH]; intros c; simpl.
  - rewrite Z.add_0_r. reflexivity.
  - replace (to_u32 (to_u32 c + f i)) with (to_u32 (c + f i)).
    + rewrite IH. f_equal. lia.
    + unfold to_u32. rewrite Z.add_mod_idemp_l by lia. reflexivity.
Qed.

Lemma checkVectorTable_sum (mem : Flash) (start : Z) :
  checkVectorTable mem start
  = if vector_table_sum mem start mod 2 ^ 32 =? 0 then 1 else 0.
Proof.
  unfold checkVectorTable, vector_table_sum.
  change 0 with (to_u32 0) at 1.
  rewrite (wrapped_sum (fun i => load_u32 mem (to_u32 (start + 4 * Z.of_nat i)))).
  reflexivity.
Qed.

Lemma checkApplication_one (P : Platform) (mem : Flash)
    (block : AppDescriptionBlock) :
  checkApplication P mem block = 1 <-> descriptor_valid P mem block.
Proof.
  unfold checkApplication, descriptor_valid, flash_range.
  rewrite checkVectorTable_sum.
  destruct (Z.gtb_spec (startAddress block) 0x5000) as [H1|H1];
    [split; [discriminate | lia]|].
  destruct (Z.gtb_spec (endAddress block) 0x100000) as [H2|H2];
    [split; [discriminate | lia]|].
  destruct (Z.eqb_spec (startAddress block) (endAddress block)) as [H3|H3];
    [split; [discriminate | tauto]|].
  destruct (Z.eqb_spec
              (crc32 P 0xFFFFFFFF
                 (bytes_at mem (startAddress block)
                    (to_u32 (endAddress block - startAddress block))))
              (crc block)) as [H4|H4];
    [|split; [discriminate | tauto]].
  destruct (Z.eqb_spec (vector_table_sum mem (startAddress block) mod 2 ^ 32) 0)
    as [H5|H5]; [tauto | split; [discriminate | tauto]].
Qed.

Lemma checkApplication_bool (P : Platform) (mem : Flash)
    (block : AppDescriptionBlock) :
  checkApplication P mem block = 0 \/ checkApplication P mem block = 1.
Proof.
  unfold checkApplication, checkVectorTable.
  repeat match goal with
  | |- context [if ?c then _ else _] => destruct c
  end; auto.
Qed.







(** ** Buffers *)

Lemma poke_length (buf : list byte) (i : nat) (b : byte) :
  length (poke buf i b) = length buf.
Proof.
  revert i. induction buf as [|h t IH]; intros [|j]; simpl; auto.
Qed.

Lemma memcpy_length (src buf : list byte) (off : nat) :
  length (memcpy buf off src) = length buf.
Proof.
  revert buf off. induction src as [|b rest IH]; intros buf off.
  - reflexivity.
  - cbn [memcpy]. rewrite IH. apply poke_length.
Qed.

Lemma poke_splice (buf : list byte) (i : nat) (b : byte) :
  (i < length buf)%nat ->
  poke buf i b = firstn i buf ++ b :: skipn (S i) buf.
Proof.
  revert i. induction buf as [|h t IH]; intros [|j] H; simpl in *;
    try lia; try reflexivity.
  f_equal. apply IH. lia.
Qed.

(** Inside the buffer, [memcpy] replaces the bytes from [off] on by [src]
    and leaves the others. *)
Lemma memcpy_splice (src buf : list byte) (off : nat) :
  (off + length src <= length buf)%nat ->
  memcpy buf off src
  = firstn off buf ++ src ++ skipn (off + length src) buf.
Proof.
  revert buf off. induction src as [|b rest IH]; intros buf off H.
  - cbn [memcpy length app]. rewrite Nat.add_0_r.
    symmetry. apply firstn_skipn.
  - cbn [memcpy length] in *.
    rewrite IH by (rewrite poke_length; lia).
    rewrite poke_splice by lia.
    rewrite firstn_app, firstn_firstn, Nat.min_r by lia.
    rewrite length_firstn, Nat.min_l by lia.
    replace (S off - off)%nat with 1%nat by lia.
    cbn [firstn].
    rewrite skipn_app, length_firstn, Nat.min_l by lia.
    rewrite (skipn_all2 (firstn off buf))
      by (rewrite length_firstn; lia).
    replace (S off + length rest - off)%nat with (S (length rest)) by lia.
    rewrite skipn_cons, skipn_skipn. cbn [app].
    replace (length rest + S off)%nat with (off + S (length rest))%nat by lia.
    rewrite <- app_assoc. reflexivity.
Qed.

Lemma frame_bytes_length (data : list byte) (off n : nat) :
  length (frame_bytes data off n) = n.
Proof. unfold frame_bytes. rewrite length_map, length_seq. reflexivity. Qed.

Lemma map_nth_firstn (buf : list byte) (m : nat) :
  (m <= length buf)%nat ->
  map (fun k => nth k buf x00) (seq 0 m) = firstn m buf.
Proof.
  revert m. induction buf as [|h t IH]; intros [|m] H; simpl in H;
    try reflexivity; try lia.
  cbn [seq map firstn nth]. f_equal.
  rewrite <- seq_shift, map_map. cbn [nth]. apply IH. lia.
Qed.

(** Within the buffer a reader of [ramBuffer] sees its first [n] bytes. *)
Lemma ram_bytes_firstn (env : Env) (s : State) (n : Z) :
  length (ramBuffer s) = Z.to_nat RAM_CAP -> n <= RAM_CAP ->
  ram_bytes env s n = firstn (Z.to_nat n) (ramBuffer s).
Proof.
  intros Hlen Hn. unfold ram_bytes.
  rewrite <- map_nth_firstn by (rewrite Hlen; lia).
  apply map_ext_in. intros k Hk. apply in_seq in Hk.
  destruct (Nat.ltb_spec k (Z.to_nat RAM_CAP)) as [_|Hge];
    [reflexivity | exfalso; lia].
Qed.

Lemma land_0x0f_range (x : Z) : 0 <= Z.land x 0x0f <= 15.
Proof.
  change (Z.land x 0x0f) with (Z.land x (Z.ones 4)).
  rewrite Z.land_ones by lia.
  pose proof (Z.mod_pos_bound x (2 ^ 4) ltac:(lia)). lia.
Qed.

(** ** The unlock sweep *)

Lemma uid_sweep_latched (data uid : list byte) (l : list nat) (s : State) :
  fold_left
    (fun s i =>
       if negb (byte_at data (i + 3) =? byte_at uid i)
       then set_lastError UPD_UID_MISSMATCH s
       else s)
    l (set_lastError UPD_UID_MISSMATCH s)
  = set_lastError UPD_UID_MISSMATCH s.
Proof.
  induction l as [|i l IH]; [reflexivity|].
  cbn [fold_left].
  destruct (negb (byte_at data (i + 3) =? byte_at uid i)); exact IH.
Qed.

Lemma uid_sweep_over (data uid : list byte) (l : list nat) (s : State) :
  ((exists i, In i l /\ byte_at data (i + 3) <> byte_at uid i) ->
   fold_left
     (fun s i =>
        if negb (byte_at data (i + 3) =? byte_at uid i)
        then set_lastError UPD_UID_MISSMATCH s
        else s)
     l s
   = set_lastError UPD_UID_MISSMATCH s) /\
  ((forall i, In i l -> byte_at data (i + 3) = byte_at uid i) ->
   fold_left
     (fun s i =>
        if negb (byte_at data (i + 3) =? byte_at uid i)
        then set_lastError UPD_UID_MISSMATCH s
        else s)
     l s
   = s).
Proof.
  revert s. induction l as [|i l IH]; intros s.
  - split; [intros [i [[] _]] | reflexivity].
  - cbn [fold_left].
    destruct (Z.eqb_spec (byte_at data (i + 3)) (byte_at uid i)) as [E|E];
      cbn [negb].
    + split.
      * intros [j [[Hj|Hj] Hne]]; [subst j; contradiction|].
        apply IH. exists j. auto.
      * intros Hall. apply IH. intros j Hj. apply Hall. right. exact Hj.
    + split.
      * intros _. apply uid_sweep_latched.
      * intros Hall. exfalso. apply E, Hall. left. reflexivity.
Qed.

(** A mismatch anywhere among the twelve positions latches the error;
    without one the sweep changes nothing. *)
Lemma uid_sweep_mismatch (data uid : list byte) (s : State) :
  uid_mismatch data uid ->
  uid_sweep data uid s = set_lastError UPD_UID_MISSMATCH s.
Proof.
  intros [i [Hi Hne]]. unfold uid_sweep.
  apply (proj1 (uid_sweep_over data uid (seq 0 12) s)).
  exists i. split; [apply in_seq; lia | exact Hne].
Qed.

Lemma uid_sweep_match (data uid : list byte) (s : State) :
  ~ uid_mismatch data uid -> uid_sweep data uid s = s.
Proof.
  intros Hno. unfold uid_sweep.
  apply (proj2 (uid_sweep_over data uid (seq 0 12) s)).
  intros i Hi. apply in_seq in Hi.
  destruct (Z.eq_dec (byte_at data (i + 3)) (byte_at uid i)) as [E|E];
    [exact E|].
  exfalso. apply Hno. exists i. split; [lia | exact E].
Qed.

Lemma uid_mismatch_dec (data uid : list byte) :
  uid_mismatch data uid \/ ~ uid_mismatch data uid.
Proof.
  unfold uid_mismatch.
  assert (H : forall n : nat,
             (exists i, (i < n)%nat /\ byte_at data (i + 3) <> byte_at uid i) \/
             ~ (exists i, (i < n)%nat /\ byte_at data (i + 3) <> byte_at uid i)).
  { induction n as [|n [IH|IH]].
    - right. intros [i [Hi _]]. lia.
    - left. destruct IH as [i [Hi Hne]]. exists i. split; [lia | exact Hne].
    - destruct (Z.eq_dec (byte_at data (n + 3)) (byte_at uid n)) as [E|E].
      + right. intros [i [Hi Hne]].
        destruct (Nat.eq_dec i n) as [->|Hin]; [contradiction|].
        apply IH. exists i. split; [lia | exact Hne].
      + left. exists n. split; [lia | exact E]. }
  apply H.
Qed.

(** ** The invariant of the engine *)

Lemma lock_words_differ : DEVICE_LOCKED <> DEVICE_UNLOCKED.
Proof. vm_compute. discriminate. Qed.

Ltac split_ifs :=
  repeat match goal with
  | |- context [if ?c then _ else _] => destruct c eqn:?
  end.

Ltac inv_solve :=
  st_simpl;
  repeat match goal with
  | H : _ /\ _ |- _ => destruct H
  end;
  repeat split; try assumption; try (unfold RAM_CAP in *; lia);
  try (intros Hlk; exfalso; apply lock_words_differ; symmetry; exact Hlk);
  auto.

Lemma boot_inv (fl : Flash) (tel : Telegram) (pin : bool) :
  engine_inv (boot fl tel pin).
Proof.
  unfold engine_inv, boot. st_simpl.
  repeat split; auto; try (unfold RAM_CAP; lia); try apply repeat_length.
Qed.

Lemma unlock_inv P env data s :
  engine_inv s -> engine_inv (case_UPD_UNLOCK_DEVICE P env data s).
Proof.
  intros Hinv. unfold case_UPD_UNLOCK_DEVICE, engine_inv in *.
  destruct (uid_mismatch_dec data (snd (iapReadUID env))) as [Hm|Hm];
    [rewrite (uid_sweep_mismatch _ _ _ Hm) | rewrite (uid_sweep_match _ _ _ Hm)];
    split_ifs; inv_solve.
Qed.

Lemma send_data_inv P data s :
  engine_inv s ->
  engine_inv (case_UPD_SEND_DATA P data (Z.land (byte_at data 0) 0x0f) s).
Proof.
  intros Hinv. unfold case_UPD_SEND_DATA, engine_inv in *.
  destruct (Z.eqb_spec (deviceLocked s) DEVICE_UNLOCKED) as [Hu|Hu];
    [|inv_solve].
  destruct (Z.ltb_spec (to_u32 (ramLocation s + Z.land (byte_at data 0) 0x0f))
              RAM_CAP) as [Hlt|Hge]; [|inv_solve].
  pose proof (to_u32_range (ramLocation s + Z.land (byte_at data 0) 0x0f)).
  st_simpl. destruct Hinv as [Hl [Hr [Hz Hlen]]].
  repeat split; auto; try lia.
  - intros Hlk. exfalso. apply lock_words_differ. congruence.
  - rewrite memcpy_length. exact Hlen.
Qed.

Lemma run_command_inv P env data s :
  engine_inv s -> engine_inv (run_command P env data s).
Proof.
  intros Hinv. unfold run_command.
  destruct (byte_at data 2 =? UPD_UNLOCK_DEVICE); [apply unlock_inv, Hinv|].
  destruct (byte_at data 2 =? UPD_REQUEST_UID).
  { unfold case_UPD_REQUEST_UID, _prepareReturnTelegram, engine_inv in *.
    split_ifs; inv_solve. }
  destruct (byte_at data 2 =? UPD_APP_VERSION_REQUEST).
  { unfold case_UPD_APP_VERSION_REQUEST, _prepareReturnTelegram, engine_inv in *.
    split_ifs; inv_solve. }
  destruct (byte_at data 2 =? UPD_ERASE_SECTOR).
  { unfold case_UPD_ERASE_SECTOR, engine_inv in *. split_ifs; inv_solve. }
  destruct (byte_at data 2 =? UPD_SEND_DATA); [apply send_data_inv, Hinv|].
  destruct (byte_at data 2 =? UPD_PROGRAM).
  { unfold case_UPD_PROGRAM, engine_inv in *. split_ifs; inv_solve. }
  destruct (byte_at data 2 =? UPD_UPDATE_BOOT_DESC).
  { unfold case_UPD_UPDATE_BOOT_DESC, engine_inv in *. split_ifs; inv_solve. }
  destruct (byte_at data 2 =? UPD_REQ_DATA).
  { unfold case_UPD_REQ_DATA, engine_inv in *. split_ifs; inv_solve. }
  destruct (byte_at data 2 =? UPD_GET_LAST_ERROR).
  { unfold case_UPD_GET_LAST_ERROR, _prepareReturnTelegram, engine_inv in *.
    inv_solve. }
  unfold engine_inv in *. inv_solve.
Qed.

(** Every reachable state satisfies the invariant. *)
Lemma reachable_inv (P : Platform) (s : State) :
  reachable P s -> engine_inv s.
Proof.
  induction 1 as [fl tel pin | b s Hr IH | env data s Hr IH].
  - apply boot_inv.
  - exact IH.
  - rewrite handle_state. apply run_command_inv. exact IH.
Qed.

Lemma locked_test (s : State) :
  deviceLocked s = DEVICE_LOCKED ->
  (deviceLocked s =? DEVICE_UNLOCKED) = false.
Proof.
  intros H. apply Z.eqb_neq. rewrite H. apply lock_words_differ.
Qed.

(** When the frame holds them, the [n] payload bytes are the first [n]
    after the three header bytes. *)
Lemma frame_bytes_firstn (data : list byte) (off n : nat) :
  (off + n <= length data)%nat ->
  frame_bytes data off n = firstn n (skipn off data).
Proof.
  intros H. unfold frame_bytes.
  rewrite <- map_nth_firstn by (rewrite length_skipn; lia).
  apply map_ext. intros k. rewrite nth_skipn. reflexivity.
Qed.

(** ** Commands on a locked device *)

(** C1. On a device that is locked, a frame carrying [UPD_ERASE_SECTOR],
    [UPD_SEND_DATA], [UPD_PROGRAM] or [UPD_UPDATE_BOOT_DESC] leaves the
    staging buffer (its contents and the cursor [ramLocation]) and the flash
    unchanged, sets [lastError] to [UPD_DEVICE_LOCKED] and is answered with
    a NACK. The device is in a state it can reach from reset: there a locked
    device has staged nothing, so the cursor reset that three of the four
    commands perform leaves the cursor where it was, at 0. *)
Theorem locked_commands_refused (P : Platform) (env : Env)
    (data : list byte) (s : State) :
  reachable P s ->
  deviceLocked s = DEVICE_LOCKED ->
  In (byte_at data 2)
     [ UPD_ERASE_SECTOR; UPD_SEND_DATA; UPD_PROGRAM; UPD_UPDATE_BOOT_DESC ] ->
  let r := handleMemoryRequests P env data s in
  ramBuffer (snd r) = ramBuffer s /\
  ramLocation (snd r) = ramLocation s /\
  flash (snd r) = flash s /\
  lastError (snd r) = UPD_DEVICE_LOCKED /\
  fst r = T_NACK_PDU.
Proof.
  intros Hreach Hlocked Hop r.
  destruct (reachable_inv P s Hreach) as [_ [_ [Hzero _]]].
  specialize (Hzero Hlocked).
  pose proof (locked_test _ Hlocked) as Htest.
  assert (Hs : ramBuffer (snd r) = ramBuffer s /\
               ramLocation (snd r) = ramLocation s /\
               flash (snd r) = flash s /\
               lastError (snd r) = UPD_DEVICE_LOCKED).
  { unfold r. rewrite handle_state.
    destruct Hop as [Hop | [Hop | [Hop | [Hop | []]]]]; symmetry in Hop.
    - rewrite (run_ERASE_SECTOR _ _ _ _ Hop). unfold case_UPD_ERASE_SECTOR.
      st_simpl. rewrite Htest. st_simpl. auto.
    - rewrite (run_SEND_DATA _ _ _ _ Hop). unfold case_UPD_SEND_DATA.
      st_simpl. rewrite Htest. st_simpl. auto.
    - rewrite (run_PROGRAM _ _ _ _ Hop). unfold case_UPD_PROGRAM.
      st_simpl. rewrite Htest. st_simpl. auto.
    - rewrite (run_UPDATE_BOOT_DESC _ _ _ _ Hop).
      unfold case_UPD_UPDATE_BOOT_DESC.
      st_simpl. rewrite Htest. st_simpl. auto. }
  destruct Hs as [Hb [Hl [Hf He]]].
  repeat split; try assumption.
  apply handle_nack. fold r. rewrite He. unfold UPD_DEVICE_LOCKED. lia.
Qed.

(** C1, witness: [UPD_ERASE_SECTOR] for sector 5 sent to the device at
    reset. *)
Lemma locked_commands_refused_witness :
  let r := handleMemoryRequests Demo.platform Demo.env_remote
             Demo.erase_five Demo.at_reset in
  ramBuffer (snd r) = ramBuffer Demo.at_reset /\
  ramLocation (snd r) = ramLocation Demo.at_reset /\
  flash (snd r) = flash Demo.at_reset /\
  lastError (snd r) = UPD_DEVICE_LOCKED /\
  fst r = T_NACK_PDU.
Proof.
  apply (locked_commands_refused Demo.platform Demo.env_remote
           Demo.erase_five Demo.at_reset).
  - apply reach_boot.
  - reflexivity.
  - left. reflexivity.
Defined.

(** ** Staging *)

(** C7. [UPD_SEND_DATA] on an unlocked device, with [len = data[0] & 0x0F]:
    when [ramLocation + len >= 4096] the command fails with
    [UPD_RAM_BUFFER_OVERFLOW] and leaves cursor and buffer as they were;
    otherwise the [len] bytes that follow the header are copied into the
    buffer at the cursor, the cursor advances by [len] and [lastError] is
    the success code. Either way the cursor ends at 4095 at most: the buffer
    never holds [RAM_CAP] bytes. *)
Theorem send_data_appends (P : Platform) (env : Env) (data : list byte)
    (s : State) :
  reachable P s ->
  deviceLocked s = DEVICE_UNLOCKED ->
  byte_at data 2 = UPD_SEND_DATA ->
  let len := Z.land (byte_at data 0) 0x0F in
  let r := handleMemoryRequests P env data s in
  (ramLocation s + len >= RAM_CAP ->
   lastError (snd r) = UPD_RAM_BUFFER_OVERFLOW /\
   fst r = T_NACK_PDU /\
   ramLocation (snd r) = ramLocation s /\
   ramBuffer (snd r) = ramBuffer s) /\
  (ramLocation s + len < RAM_CAP ->
   ramBuffer (snd r)
   = firstn (Z.to_nat (ramLocation s)) (ramBuffer s)
     ++ frame_bytes data 3 (Z.to_nat len)
     ++ skipn (Z.to_nat (ramLocation s + len)) (ramBuffer s) /\
   ramLocation (snd r) = ramLocation s + len /\
   lastError (snd r) = IAP_SUCCESS P /\
   fst r = T_ACK_PDU) /\
  ((3 + Z.to_nat len <= length data)%nat ->
   frame_bytes data 3 (Z.to_nat len) = firstn (Z.to_nat len) (skipn 3 data)) /\
  ramLocation (snd r) <= RAM_CAP - 1.
Proof.
  intros Hreach Hun Hop len r.
  destruct (reachable_inv P s Hreach) as [_ [Hrange [_ Hlen]]].
  pose proof (land_0x0f_range (byte_at data 0)) as Hnib. fold len in Hnib.
  assert (Hsum : to_u32 (ramLocation s + len) = ramLocation s + len)
    by (apply to_u32_small; unfold RAM_CAP in *; lia).
  assert (Hs : snd r = case_UPD_SEND_DATA P data len
                         (set_pinInfo (negb (pinInfo s)) s)).
  { unfold r. rewrite handle_state. apply run_SEND_DATA. exact Hop. }
  unfold case_UPD_SEND_DATA in Hs. st_simpl.
  rewrite Hun, Z.eqb_refl, Hsum in Hs.
  destruct (Z.ltb_spec (ramLocation s + len) RAM_CAP) as [Hlt|Hge].
  - assert (Hcur : ramLocation (snd r) = ramLocation s + len)
      by (rewrite Hs; reflexivity).
    split; [intros; lia|]. split; [|split].
    + intros _. split; [|split; [exact Hcur|split]].
      * rewrite Hs. st_simpl. rewrite memcpy_splice.
        -- rewrite frame_bytes_length. do 3 f_equal.
           unfold RAM_CAP in *. lia.
        -- rewrite frame_bytes_length, Hlen. unfold RAM_CAP in *. lia.
      * rewrite Hs. reflexivity.
      * apply handle_ack. fold r. rewrite Hs. reflexivity.
    + apply frame_bytes_firstn.
    + lia.
  - assert (Hcur : ramLocation (snd r) = ramLocation s)
      by (rewrite Hs; reflexivity).
    split; [|split; [intros; lia|split]].
    + intros _. split; [rewrite Hs; reflexivity|].
      split; [|split; [exact Hcur | rewrite Hs; reflexivity]].
      apply handle_nack. fold r. rewrite Hs. st_simpl.
      unfold UPD_RAM_BUFFER_OVERFLOW. lia.
    + apply frame_bytes_firstn.
    + unfold RAM_CAP in *. lia.
Qed.

(** C7, witness: five bytes sent to the unlocked demo device land at the
    start of the buffer and move the cursor to 5. *)
Lemma send_data_appends_witness :
  let r := handleMemoryRequests Demo.platform Demo.env_remote
             Demo.send_five Demo.unlocked in
  ramLocation (snd r) = 5 /\
  lastError (snd r) = 0 /\
  fst r = T_ACK_PDU /\
  firstn 5 (ramBuffer (snd r)) = [ xde; xad; xbe; xef; x2a ].
Proof.
  destruct (send_data_appends Demo.platform Demo.env_remote Demo.send_five
              Demo.unlocked) as [_ [H _]].
  - apply reach_frame. apply reach_boot.
  - reflexivity.
  - reflexivity.
  - destruct H as [Hb [Hl [He Ha]]]; [vm_compute; reflexivity|].
    split; [exact Hl|]. split; [exact He|]. split; [exact Ha|].
    rewrite Hb. vm_compute. reflexivity.
Defined.

(** ** Byte order *)

Lemma lor_shiftl_add (hi lo k : Z) :
  0 <= k -> 0 <= lo < 2 ^ k ->
  Z.lor (Z.shiftl hi k) lo = hi * 2 ^ k + lo.
Proof.
  intros Hk Hlo.
  pose proof (Z.add_lor_land (Z.shiftl hi k) lo) as E.
  assert (Hz : Z.land (Z.shiftl hi k) lo = 0).
  { apply Z.bits_inj'. intros n Hn.
    rewrite Z.land_spec, Z.bits_0.
    destruct (Z.lt_ge_cases n k) as [Hlt|Hge].
    - rewrite Z.shiftl_spec_low by lia. reflexivity.
    - rewrite <- (Z.mod_small lo (2 ^ k)) by lia.
      rewrite Z.mod_pow2_bits_high by lia. apply andb_false_r. }
  rewrite Hz, Z.add_0_r in E. rewrite E, Z.shiftl_mul_pow2 by lia.
  reflexivity.
Qed.

(** [streamToUIn32] reads its four bytes big-endian. *)
Lemma streamToUIn32_be (buffer : list byte) :
  streamToUIn32 buffer = be_value buffer.
Proof.
  unfold streamToUIn32, be_value.
  pose proof (byte_at_range buffer 0) as H0.
  pose proof (byte_at_range buffer 1) as H1.
  pose proof (byte_at_range buffer 2) as H2.
  pose proof (byte_at_range buffer 3) as H3.
  set (b0 := byte_at buffer 0) in *. set (b1 := byte_at buffer 1) in *.
  set (b2 := byte_at buffer 2) in *. set (b3 := byte_at buffer 3) in *.
  assert (E : Z.lor (Z.lor (Z.lor (Z.shiftl b0 24) (Z.shiftl b1 16))
                       (Z.shiftl b2 8)) b3
              = Z.lor (Z.shiftl (Z.lor (Z.shiftl (Z.lor (Z.shiftl b0 8) b1) 8)
                                   b2) 8) b3).
  { rewrite !Z.shiftl_lor, !Z.shiftl_shiftl by lia. reflexivity. }
  rewrite E.
  rewrite (lor_shiftl_add b0 b1 8) by lia.
  rewrite (lor_shiftl_add (b0 * 2 ^ 8 + b1) b2 8) by lia.
  rewrite (lor_shiftl_add ((b0 * 2 ^ 8 + b1) * 2 ^ 8 + b2) b3 8) by lia.
  rewrite to_u32_small by lia. lia.
Qed.

(** The bytes of a word in memory read back, little-endian, as the word. *)
Lemma u32_in_memory_le (v : Z) : le_value (u32_in_memory v) = to_u32 v.
Proof.
  unfold le_value, u32_in_memory, byte_at. cbn [nth].
  rewrite !u8_to_byte, !Z.shiftr_div_pow2 by lia.
  unfold to_u32.
  pose proof (Z.div_mod v (2 ^ 8) ltac:(lia)) as E0.
  pose proof (Z.mod_pos_bound v (2 ^ 8) ltac:(lia)) as R0.
  pose proof (Z.div_mod (v / 2 ^ 8) (2 ^ 8) ltac:(lia)) as E1.
  pose proof (Z.mod_pos_bound (v / 2 ^ 8) (2 ^ 8) ltac:(lia)) as R1.
  pose proof (Z.div_mod (v / 2 ^ 16) (2 ^ 8) ltac:(lia)) as E2.
  pose proof (Z.mod_pos_bound (v / 2 ^ 16) (2 ^ 8) ltac:(lia)) as R2.
  pose proof (Z.div_mod (v / 2 ^ 24) (2 ^ 8) ltac:(lia)) as E3.
  pose proof (Z.mod_pos_bound (v / 2 ^ 24) (2 ^ 8) ltac:(lia)) as R3.
  replace (v / 2 ^ 8 / 2 ^ 8) with (v / 2 ^ 16) in E1
    by (rewrite Z.div_div by lia; reflexivity).
  replace (v / 2 ^ 16 / 2 ^ 8) with (v / 2 ^ 24) in E2
    by (rewrite Z.div_div by lia; reflexivity).
  change 256 with (2 ^ 8).
  apply Z.mod_unique with (q := v / 2 ^ 24 / 2 ^ 8); lia.
Qed.

(** ** Unlocking *)

Lemma unlock_remote_state P env data s :
  byte_at data 2 = UPD_UNLOCK_DEVICE ->
  progPinStatus env = true ->
  snd (handleMemoryRequests P env data s)
  = let s0 := set_pinInfo (negb (pinInfo s)) s in
    let s1 :=
      if IAP_SUCCESS P =? fst (iapReadUID env)
      then uid_sweep data (snd (iapReadUID env)) s0
      else s0 in
    if negb (lastError s1 =? UPD_UID_MISSMATCH) then
      set_lastError (IAP_SUCCESS P) (set_deviceLocked DEVICE_UNLOCKED s1)
    else s1.
Proof.
  intros Hop Hpin.
  rewrite handle_state, (run_UNLOCK_DEVICE _ _ _ _ Hop).
  unfold case_UPD_UNLOCK_DEVICE. rewrite Hpin. reflexivity.
Qed.

(** C2 (as amended). An [UPD_UNLOCK_DEVICE] frame received with the
    program pin deasserted and the unique-ID read successful: the first
    twelve bytes of the ID are compared with payload bytes 0 to 11; if any
    position differs, [lastError] becomes [UPD_UID_MISSMATCH] and the lock
    state is what it was (a locked device stays locked); if none differs and
    [lastError] did not already hold [UPD_UID_MISSMATCH], the device is
    unlocked and [lastError] is the success code. *)
Theorem unlock_by_uid (P : Platform) (env : Env) (data : list byte)
    (s : State) :
  byte_at data 2 = UPD_UNLOCK_DEVICE ->
  progPinStatus env = true ->
  fst (iapReadUID env) = IAP_SUCCESS P ->
  let s' := snd (handleMemoryRequests P env data s) in
  (uid_mismatch data (snd (iapReadUID env)) ->
   lastError s' = UPD_UID_MISSMATCH /\ deviceLocked s' = deviceLocked s) /\
  (~ uid_mismatch data (snd (iapReadUID env)) ->
   lastError s <> UPD_UID_MISSMATCH ->
   deviceLocked s' = DEVICE_UNLOCKED /\ lastError s' = IAP_SUCCESS P).
Proof.
  intros Hop Hpin Hread s'. unfold s'.
  rewrite (unlock_remote_state _ _ _ _ Hop Hpin).
  cbv zeta. rewrite Hread, Z.eqb_refl.
  split.
  - intros Hm. rewrite (uid_sweep_mismatch _ _ _ Hm).
    st_simpl. rewrite Z.eqb_refl. cbn [negb]. st_simpl. auto.
  - intros Hm Hold. rewrite (uid_sweep_match _ _ _ Hm).
    st_simpl. apply Z.eqb_neq in Hold. rewrite Hold. cbn [negb]. st_simpl.
    auto.
Qed.

(** C2, witness: at reset the demo device is unlocked by its own ID. *)
Lemma unlock_by_uid_witness :
  let s' := snd (handleMemoryRequests Demo.platform Demo.env_remote
                   Demo.unlock_right Demo.at_reset) in
  deviceLocked s' = DEVICE_UNLOCKED /\ lastError s' = 0.
Proof.
  destruct (unlock_by_uid Demo.platform Demo.env_remote Demo.unlock_right
              Demo.at_reset) as [_ H]; try reflexivity.
  apply H.
  - intros [i [Hi Hne]]. apply Hne.
    do 12 (destruct i as [|i]; [reflexivity|]). lia.
  - vm_compute. discriminate.
Defined.

(** C2, counterexample. After one failed attempt [lastError] holds
    [UPD_UID_MISSMATCH]; the next frame carries the right ID, no position
    differs, and the device stays locked with the stale error. And when the
    unique-ID read reports a failure, a frame with a wrong ID unlocks the
    device. Both frames are unlock frames received with the program pin
    deasserted by a device in a reachable state. *)
Lemma unlock_by_uid_spec_fails :
  (byte_at Demo.unlock_right 2 = UPD_UNLOCK_DEVICE /\
   progPinStatus Demo.env_remote = true /\
   reachable Demo.platform Demo.after_wrong_unlock /\
   ~ unlock_by_uid_spec Demo.platform Demo.env_remote Demo.unlock_right
       Demo.after_wrong_unlock) /\
  (byte_at Demo.unlock_wrong 2 = UPD_UNLOCK_DEVICE /\
   progPinStatus Demo.env_uid_read_fails = true /\
   reachable Demo.platform Demo.at_reset /\
   ~ unlock_by_uid_spec Demo.platform Demo.env_uid_read_fails
       Demo.unlock_wrong Demo.at_reset).
Proof.
  split.
  - split; [reflexivity|]. split; [reflexivity|].
    split; [apply reach_frame; apply reach_boot|].
    intros [_ H].
    assert (Hno : ~ uid_mismatch Demo.unlock_right
                      (snd (iapReadUID Demo.env_remote))).
    { intros [i [Hi Hne]]. apply Hne.
      do 12 (destruct i as [|i]; [reflexivity|]). lia. }
    destruct (H Hno) as [Hu _]. vm_compute in Hu. discriminate.
  - split; [reflexivity|]. split; [reflexivity|].
    split; [apply reach_boot|].
    intros [H _].
    assert (Hm : uid_mismatch Demo.unlock_wrong
                   (snd (iapReadUID Demo.env_uid_read_fails))).
    { exists 11%nat. split; [lia|]. vm_compute. discriminate. }
    destruct (H Hm) as [He _]. vm_compute in He. discriminate.
Qed.

(** C10. An [UPD_UNLOCK_DEVICE] frame received with the program pin
    deasserted while the unique-ID read reports a failure: the comparison is
    skipped, so the state left behind does not depend on the payload, and
    whenever [lastError] did not hold [UPD_UID_MISSMATCH] before, the device
    is unlocked with [lastError] the success code and the frame is ACKed. *)
Theorem uid_read_failure_unlocks (P : Platform) (env : Env)
    (data : list byte) (s : State) :
  byte_at data 2 = UPD_UNLOCK_DEVICE ->
  progPinStatus env = true ->
  fst (iapReadUID env) <> IAP_SUCCESS P ->
  lastError s <> UPD_UID_MISSMATCH ->
  let r := handleMemoryRequests P env data s in
  snd r = set_lastError (IAP_SUCCESS P)
            (set_deviceLocked DEVICE_UNLOCKED
               (set_pinInfo (negb (pinInfo s)) s)) /\
  deviceLocked (snd r) = DEVICE_UNLOCKED /\
  lastError (snd r) = IAP_SUCCESS P /\
  fst r = T_ACK_PDU.
Proof.
  intros Hop Hpin Hread Hold r.
  assert (Hs : snd r = set_lastError (IAP_SUCCESS P)
                         (set_deviceLocked DEVICE_UNLOCKED
                            (set_pinInfo (negb (pinInfo s)) s))).
  { unfold r. rewrite (unlock_remote_state _ _ _ _ Hop Hpin). cbv zeta.
    destruct (Z.eqb_spec (IAP_SUCCESS P) (fst (iapReadUID env))) as [E|_];
      [exfalso; apply Hread; symmetry; exact E|].
    st_simpl. apply Z.eqb_neq in Hold. rewrite Hold. reflexivity. }
  split; [exact Hs|]. split; [rewrite Hs; reflexivity|].
  split; [rewrite Hs; reflexivity|].
  apply handle_ack. fold r. rewrite Hs. reflexivity.
Qed.

(** C10, witness: the read fails, the frame carries a wrong ID, the demo
    device at reset is unlocked. *)
Lemma uid_read_failure_unlocks_witness :
  let r := handleMemoryRequests Demo.platform Demo.env_uid_read_fails
             Demo.unlock_wrong Demo.at_reset in
  deviceLocked (snd r) = DEVICE_UNLOCKED /\
  lastError (snd r) = 0 /\
  fst r = T_ACK_PDU.
Proof.
  apply (uid_read_failure_unlocks Demo.platform Demo.env_uid_read_fails
           Demo.unlock_wrong Demo.at_reset).
  - reflexivity.
  - reflexivity.
  - vm_compute. discriminate.
  - vm_compute. discriminate.
Defined.

(** ** Programming *)

(** C6. An [UPD_PROGRAM] frame on an unlocked device whose target range is
    allowed: [count], [address] and the CRC are the big-endian words at
    payload bytes 0-3, 4-7 and 8-11. If the CRC-32 (seed 0xFFFFFFFF) of the
    first [count] staged bytes differs from the CRC sent, the answer is a
    NACK, [lastError] is [UDP_CRC_EROR], the flash is unchanged and the
    cursor is 0. If it matches, the flash driver programs those bytes at
    [address]: flash and [lastError] are what [iapProgram] returns, and the
    cursor is 0. Up to the size of the buffer, the bytes checked and
    programmed are the first [count] bytes of [ramBuffer]. *)
Theorem program_checks_crc (P : Platform) (env : Env) (data : list byte)
    (s : State) :
  byte_at data 2 = UPD_PROGRAM ->
  deviceLocked s = DEVICE_UNLOCKED ->
  let count := be_value (skipn 3 data) in
  let address := be_value (skipn 7 data) in
  let crc_sent := be_value (skipn 11 data) in
  let staged := ram_bytes env s count in
  addressAllowedToProgram P address count = true ->
  let r := handleMemoryRequests P env data s in
  (crc32 P 0xFFFFFFFF staged <> crc_sent ->
   fst r = T_NACK_PDU /\
   lastError (snd r) = UDP_CRC_EROR /\
   flash (snd r) = flash s /\
   ramLocation (snd r) = 0) /\
  (crc32 P 0xFFFFFFFF staged = crc_sent ->
   flash (snd r) = snd (iapProgram P address staged count (flash s)) /\
   lastError (snd r) = to_u32 (fst (iapProgram P address staged count (flash s))) /\
   ramLocation (snd r) = 0) /\
  (count <= RAM_CAP -> length (ramBuffer s) = Z.to_nat RAM_CAP ->
   staged = firstn (Z.to_nat count) (ramBuffer s)).
Proof.
  intros Hop Hun count address crc_sent staged Hallowed r.
  assert (Hs : snd r = case_UPD_PROGRAM P env data
                         (set_pinInfo (negb (pinInfo s)) s)).
  { unfold r. rewrite handle_state. apply run_PROGRAM. exact Hop. }
  unfold case_UPD_PROGRAM in Hs. st_simpl.
  change (3 + 4)%nat with 7%nat in Hs. change (7 + 4)%nat with 11%nat in Hs.
  rewrite !streamToUIn32_be in Hs.
  change (ram_bytes env (set_pinInfo (negb (pinInfo s)) s)
            (be_value (skipn 3 data))) with staged in Hs.
  fold count address crc_sent in Hs.
  rewrite Hun, Z.eqb_refl, Hallowed in Hs.
  split; [|split].
  - intros Hne. apply Z.eqb_neq in Hne. rewrite Hne in Hs.
    split; [|rewrite Hs; st_simpl; auto].
    apply handle_nack. fold r. rewrite Hs. st_simpl.
    unfold UDP_CRC_EROR. lia.
  - intros Heq. apply Z.eqb_eq in Heq. rewrite Heq in Hs.
    rewrite Hs. st_simpl. auto.
  - intros Hc Hlen. apply ram_bytes_firstn; assumption.
Qed.

(** C6, witness: five staged bytes, programmed at 0x4000 with the right
    CRC, are in flash afterwards; with one bit of the CRC flipped the frame
    is refused and flash keeps its erased bytes. *)
Lemma program_checks_crc_witness :
  let good := handleMemoryRequests Demo.platform Demo.env_remote
                (Demo.program_five Demo.crc_five) Demo.staged_five in
  let bad := handleMemoryRequests Demo.platform Demo.env_remote
               (Demo.program_five (Z.lxor Demo.crc_five 1)) Demo.staged_five in
  (map (flash (snd good)) [ 0x4000; 0x4001; 0x4002; 0x4003; 0x4004 ]
   = [ xde; xad; xbe; xef; x2a ] /\
   fst good = T_ACK_PDU /\ ramLocation (snd good) = 0) /\
  (fst bad = T_NACK_PDU /\ lastError (snd bad) = UDP_CRC_EROR /\
   flash (snd bad) = flash Demo.staged_five /\ ramLocation (snd bad) = 0).
Proof.
  intros good bad. split.
  - destruct (program_checks_crc Demo.platform Demo.env_remote
                (Demo.program_five Demo.crc_five) Demo.staged_five)
      as [_ [H _]]; try reflexivity.
    destruct H as [Hf [He Hl]]; [vm_compute; reflexivity|].
    split; [|split; [|exact Hl]].
    + unfold good. rewrite Hf. vm_compute. reflexivity.
    + apply handle_ack. rewrite He. vm_compute. reflexivity.
  - destruct (program_checks_crc Demo.platform Demo.env_remote
                (Demo.program_five (Z.lxor Demo.crc_five 1)) Demo.staged_five)
      as [H _]; try reflexivity.
    apply H. vm_compute. discriminate.
Defined.

(** ** Acknowledgement and error reporting *)

(** C9. [UPD_GET_LAST_ERROR], whatever the lock state: a reply is flagged,
    its header is 0x67 0x42 0x44 0x00 0x15 at bytes 5 to 9, and bytes 10 to
    13 are the four bytes of [lastError] as they sit in memory, which read
    little-endian give its value; [lastError] is then the success code and
    the frame is ACKed. A [UPD_GET_LAST_ERROR] that follows immediately
    reports the success code and is ACKed too. *)
Theorem get_last_error_reports_and_clears (P : Platform) (env : Env)
    (data : list byte) (s : State) :
  byte_at data 2 = UPD_GET_LAST_ERROR ->
  let r := handleMemoryRequests P env data s in
  let reply := sendTelegram (snd r) in
  sendTel (snd r) = true /\
  map reply [ 5; 6; 7; 8; 9 ]%nat = [ x67; x42; x44; x00; x15 ] /\
  map reply [ 10; 11; 12; 13 ]%nat = u32_in_memory (lastError s) /\
  le_value (map reply [ 10; 11; 12; 13 ]%nat) = to_u32 (lastError s) /\
  lastError (snd r) = IAP_SUCCESS P /\
  fst r = T_ACK_PDU /\
  (forall env' data',
      byte_at data' 2 = UPD_GET_LAST_ERROR ->
      let r' := handleMemoryRequests P env' data' (snd r) in
      le_value (map (sendTelegram (snd r')) [ 10; 11; 12; 13 ]%nat)
      = IAP_SUCCESS P /\
      lastError (snd r') = IAP_SUCCESS P /\
      fst r' = T_ACK_PDU).
Proof.
  assert (Hone : forall env0 data0 s0,
             byte_at data0 2 = UPD_GET_LAST_ERROR ->
             let r0 := handleMemoryRequests P env0 data0 s0 in
             sendTel (snd r0) = true /\
             map (sendTelegram (snd r0)) [ 5; 6; 7; 8; 9 ]%nat
             = [ x67; x42; x44; x00; x15 ] /\
             map (sendTelegram (snd r0)) [ 10; 11; 12; 13 ]%nat
             = u32_in_memory (lastError s0) /\
             lastError (snd r0) = IAP_SUCCESS P /\
             fst r0 = T_ACK_PDU).
  { intros env0 data0 s0 Hop r0.
    assert (Hs : snd r0 = case_UPD_GET_LAST_ERROR P
                            (set_pinInfo (negb (pinInfo s0)) s0)).
    { unfold r0. rewrite handle_state. apply run_GET_LAST_ERROR. exact Hop. }
    split; [rewrite Hs; reflexivity|].
    split; [rewrite Hs; reflexivity|].
    split; [rewrite Hs; reflexivity|].
    split; [rewrite Hs; reflexivity|].
    apply handle_ack. fold r0. rewrite Hs. reflexivity. }
  intros Hop r reply.
  destruct (Hone env data s Hop) as [H1 [H2 [H3 [H4 H5]]]].
  fold r in H1, H2, H3, H4, H5. fold reply in H2, H3.
  split; [exact H1|]. split; [exact H2|]. split; [exact H3|].
  split; [rewrite H3; apply u32_in_memory_le|].
  split; [exact H4|]. split; [exact H5|].
  intros env' data' Hop' r'.
  destruct (Hone env' data' (snd r) Hop') as [_ [_ [H3' [H4' H5']]]].
  fold r' in H3', H4', H5'.
  split; [|split; assumption].
  rewrite H3', u32_in_memory_le, H4.
  apply to_u32_small. pose proof (IAP_SUCCESS_range P). lia.
Qed.

(** C9, witness: after the failed unlock attempt the reply carries
    0x108 as 08 01 00 00. *)
Lemma get_last_error_reports_and_clears_witness :
  let r := handleMemoryRequests Demo.platform Demo.env_remote
             Demo.get_last_error Demo.after_wrong_unlock in
  sendTel (snd r) = true /\
  map (sendTelegram (snd r)) [ 10; 11; 12; 13 ]%nat = [ x08; x01; x00; x00 ] /\
  lastError (snd r) = 0 /\
  fst r = T_ACK_PDU.
Proof.
  intros r.
  destruct (get_last_error_reports_and_clears Demo.platform Demo.env_remote
              Demo.get_last_error Demo.after_wrong_unlock)
    as [H1 [_ [H3 [_ [H4 [H5 _]]]]]]; [reflexivity|].
  fold r in H1, H3, H4, H5.
  split; [exact H1|]. split; [rewrite H3; vm_compute; reflexivity|].
  split; [exact H4 | exact H5].
Defined.

(** * Further properties of the engine *)

(** ** What one frame can change *)

Lemma uid_sweep_cases (data uid : list byte) (s : State) :
  uid_sweep data uid s = s \/
  uid_sweep data uid s = set_lastError UPD_UID_MISSMATCH s.
Proof.
  destruct (uid_mismatch_dec data uid) as [Hm|Hm].
  - right. apply uid_sweep_mismatch. exact Hm.
  - left. apply uid_sweep_match. exact Hm.
Qed.

Ltac sweep_cases :=
  match goal with
  | |- context [uid_sweep ?d ?u ?s] =>
      destruct (uid_sweep_cases d u s) as [Hsw|Hsw]; rewrite Hsw
  end.

Ltac unfold_cases :=
  unfold case_UPD_UNLOCK_DEVICE, case_UPD_REQUEST_UID,
    case_UPD_APP_VERSION_REQUEST, case_UPD_ERASE_SECTOR, case_UPD_SEND_DATA,
    case_UPD_PROGRAM, case_UPD_UPDATE_BOOT_DESC, case_UPD_REQ_DATA,
    case_UPD_GET_LAST_ERROR, _prepareReturnTelegram.

(** The lock word changes in one way only: the unlock case stores
    [DEVICE_UNLOCKED]. *)
Lemma run_command_lock P env data s :
  deviceLocked (run_command P env data s) = deviceLocked s \/
  (byte_at data 2 = UPD_UNLOCK_DEVICE /\
   deviceLocked (run_command P env data s) = DEVICE_UNLOCKED).
Proof.
  unfold run_command.
  destruct (Z.eqb_spec (byte_at data 2) UPD_UNLOCK_DEVICE) as [E|_].
  { unfold case_UPD_UNLOCK_DEVICE.
    destruct (negb (progPinStatus env)); [right; split; [exact E | reflexivity]|].
    destruct (IAP_SUCCESS P =? fst (iapReadUID env)); [sweep_cases|];
      split_ifs; st_simpl; auto. }
  left. unfold_cases. split_ifs; reflexivity.
Qed.

Lemma valid_of_check P mem block :
  negb (checkApplication P mem block =? 0) = true ->
  descriptor_valid P mem block.
Proof.
  intros H. apply negb_true_iff, Z.eqb_neq in H.
  apply checkApplication_one.
  destruct (checkApplication_bool P mem block) as [E|E];
    [contradiction | exact E].
Qed.

(** The flash changes only through one of the three admitted writes, on an
    unlocked device. *)
Lemma run_command_flash P env data s :
  flash (run_command P env data s) = flash s \/
  (deviceLocked s = DEVICE_UNLOCKED /\ flash_write_admitted P env data s).
Proof.
  unfold run_command, flash_write_admitted.
  destruct (Z.eqb_spec (byte_at data 2) UPD_UNLOCK_DEVICE) as [_|_].
  { left. unfold case_UPD_UNLOCK_DEVICE.
    destruct (negb (progPinStatus env)); [reflexivity|].
    destruct (IAP_SUCCESS P =? fst (iapReadUID env)); [sweep_cases|];
      split_ifs; reflexivity. }
  destruct (Z.eqb_spec (byte_at data 2) UPD_REQUEST_UID) as [_|_].
  { left. unfold_cases. split_ifs; reflexivity. }
  destruct (Z.eqb_spec (byte_at data 2) UPD_APP_VERSION_REQUEST) as [_|_].
  { left. unfold_cases. split_ifs; reflexivity. }
  destruct (Z.eqb_spec (byte_at data 2) UPD_ERASE_SECTOR) as [E|_].
  { unfold case_UPD_ERASE_SECTOR.
    destruct (Z.eqb_spec (deviceLocked s) DEVICE_UNLOCKED) as [Hu|_];
      [|left; reflexivity].
    destruct (sectorAllowedToErease P (byte_at data 3)) eqn:Hal;
      [|left; reflexivity].
    right. split; [exact Hu|]. left. split; [exact E | reflexivity]. }
  destruct (Z.eqb_spec (byte_at data 2) UPD_SEND_DATA) as [_|_].
  { left. unfold_cases. split_ifs; reflexivity. }
  destruct (Z.eqb_spec (byte_at data 2) UPD_PROGRAM) as [E|_].
  { unfold case_UPD_PROGRAM.
    destruct (Z.eqb_spec (deviceLocked s) DEVICE_UNLOCKED) as [Hu|_];
      [|left; reflexivity].
    destruct (addressAllowedToProgram P (streamToUIn32 (skipn (3 + 4) data))
                (streamToUIn32 (skipn 3 data))) eqn:Hal; [|left; reflexivity].
    destruct (Z.eqb_spec
                (crc32 P 0xFFFFFFFF
                   (ram_bytes env s (streamToUIn32 (skipn 3 data))))
                (streamToUIn32 (skipn (3 + 4 + 4) data))) as [Hc|_];
      [|left; reflexivity].
    right. split; [exact Hu|]. right. left.
    split; [exact E|]. split; [exact Hal | exact Hc]. }
  destruct (Z.eqb_spec (byte_at data 2) UPD_UPDATE_BOOT_DESC) as [E|_].
  { unfold case_UPD_UPDATE_BOOT_DESC.
    destruct (Z.eqb_spec (deviceLocked s) DEVICE_UNLOCKED) as [Hu|_];
      [|left; reflexivity].
    destruct (Z.eqb_spec (crc32 P 0xFFFFFFFF (ram_bytes env s 256))
                (streamToUIn32 (skipn 3 data))) as [Hc|_];
      [|left; reflexivity].
    destruct (negb (checkApplication P (flash s)
                      (descriptor_cast P (ramBuffer s)) =? 0)) eqn:Hv;
      [|left; reflexivity].
    right. split; [exact Hu|]. right. right.
    split; [exact E|]. split; [exact Hc|]. apply valid_of_check. exact Hv. }
  left. unfold_cases. split_ifs; reflexivity.
Qed.

(** The staging buffer changes only in [UPD_SEND_DATA] on an unlocked device
    with room left. *)
Lemma run_command_buffer P env data s :
  ramBuffer (run_command P env data s) = ramBuffer s \/
  (byte_at data 2 = UPD_SEND_DATA /\
   deviceLocked s = DEVICE_UNLOCKED /\
   to_u32 (ramLocation s + send_length data) < RAM_CAP).
Proof.
  unfold run_command, send_length.
  destruct (Z.eqb_spec (byte_at data 2) UPD_UNLOCK_DEVICE) as [_|_].
  { left. unfold case_UPD_UNLOCK_DEVICE.
    destruct (negb (progPinStatus env)); [reflexivity|].
    destruct (IAP_SUCCESS P =? fst (iapReadUID env)); [sweep_cases|];
      split_ifs; reflexivity. }
  destruct (Z.eqb_spec (byte_at data 2) UPD_REQUEST_UID) as [_|_].
  { left. unfold_cases. split_ifs; reflexivity. }
  destruct (Z.eqb_spec (byte_at data 2) UPD_APP_VERSION_REQUEST) as [_|_].
  { left. unfold_cases. split_ifs; reflexivity. }
  destruct (Z.eqb_spec (byte_at data 2) UPD_ERASE_SECTOR) as [_|_].
  { left. unfold_cases. split_ifs; reflexivity. }
  destruct (Z.eqb_spec (byte_at data 2) UPD_SEND_DATA) as [E|_].
  { unfold case_UPD_SEND_DATA.
    destruct (Z.eqb_spec (deviceLocked s) DEVICE_UNLOCKED) as [Hu|_];
      [|left; reflexivity].
    destruct (Z.ltb_spec (to_u32 (ramLocation s + Z.land (byte_at data 0) 0x0f))
                RAM_CAP) as [Hlt|_]; [|left; reflexivity].
    right. auto. }
  left. unfold_cases. split_ifs; reflexivity.
Qed.

Lemma run_command_cursor P env data s :
  ramLocation (run_command P env data s) = ramLocation s \/
  ramLocation (run_command P env data s) = 0 \/
  (byte_at data 2 = UPD_SEND_DATA /\ deviceLocked s = DEVICE_UNLOCKED).
Proof.
  unfold run_command.
  destruct (Z.eqb_spec (byte_at data 2) UPD_UNLOCK_DEVICE) as [_|_].
  { left. unfold case_UPD_UNLOCK_DEVICE.
    destruct (negb (progPinStatus env)); [reflexivity|].
    destruct (IAP_SUCCESS P =? fst (iapReadUID env)); [sweep_cases|];
      split_ifs; reflexivity. }
  destruct (Z.eqb_spec (byte_at data 2) UPD_REQUEST_UID) as [_|_].
  { left. unfold_cases. split_ifs; reflexivity. }
  destruct (Z.eqb_spec (byte_at data 2) UPD_APP_VERSION_REQUEST) as [_|_].
  { left. unfold_cases. split_ifs; reflexivity. }
  destruct (Z.eqb_spec (byte_at data 2) UPD_ERASE_SECTOR) as [_|_].
  { right. left. reflexivity. }
  destruct (Z.eqb_spec (byte_at data 2) UPD_SEND_DATA) as [E|_].
  { unfold case_UPD_SEND_DATA.
    destruct (Z.eqb_spec (deviceLocked s) DEVICE_UNLOCKED) as [Hu|_];
      [right; right; auto | left; reflexivity]. }
  destruct (Z.eqb_spec (byte_at data 2) UPD_PROGRAM) as [_|_].
  { right. left. reflexivity. }
  destruct (Z.eqb_spec (byte_at data 2) UPD_UPDATE_BOOT_DESC) as [_|_].
  { right. left. reflexivity. }
  left. unfold_cases. split_ifs; reflexivity.
Qed.

Lemma run_frames_cons P f frames s :
  run_frames P (f :: frames) s
  = run_frames P frames (snd (handleMemoryRequests P (fst f) (snd f) s)).
Proof. reflexivity. Qed.

(** ** Safety of the flash and of the lock *)

(** X1. Whatever the frame and whatever the state, the flash after the call
    differs from the flash before only if the device was unlocked on entry
    and the frame is an erase of a sector the policy allows, a program of a
    range the policy allows whose CRC matches the staged bytes, or a
    boot-descriptor update whose CRC matches and whose descriptor
    validates. *)
Theorem flash_changes_only_when_admitted (P : Platform) (env : Env)
    (data : list byte) (s : State) :
  flash (snd (handleMemoryRequests P env data s)) <> flash s ->
  deviceLocked s = DEVICE_UNLOCKED /\ flash_write_admitted P env data s.
Proof.
  intros Hch. rewrite handle_state in Hch.
  destruct (run_command_flash P env data (set_pinInfo (negb (pinInfo s)) s))
    as [Hsame | Hok].
  - exfalso. apply Hch. exact Hsame.
  - exact Hok.
Qed.

(** X1, witness: programming the five staged bytes with the right CRC
    changes the flash at 0x4000, on an unlocked device and through an
    admitted write. *)
Lemma flash_changes_only_when_admitted_witness :
  deviceLocked Demo.staged_five = DEVICE_UNLOCKED /\
  flash_write_admitted Demo.platform Demo.env_remote
    (Demo.program_five Demo.crc_five) Demo.staged_five.
Proof.
  apply (flash_changes_only_when_admitted Demo.platform Demo.env_remote
           (Demo.program_five Demo.crc_five) Demo.staged_five).
  intros E.
  apply (f_equal (fun fl : Flash => fl 0x4000)) in E.
  vm_compute in E. discriminate.
Defined.

(** X2. There is no way back to the locked state: once the lock word holds
    [DEVICE_UNLOCKED] it holds it after every sequence of frames. *)
Theorem unlocked_stays_unlocked (P : Platform)
    (frames : list (Env * list byte)) (s : State) :
  deviceLocked s = DEVICE_UNLOCKED ->
  deviceLocked (run_frames P frames s) = DEVICE_UNLOCKED.
Proof.
  revert s. induction frames as [|f frames IH]; intros s Hu.
  - exact Hu.
  - rewrite run_frames_cons. apply IH. rewrite handle_state.
    destruct (run_command_lock P (fst f) (snd f)
                (set_pinInfo (negb (pinInfo s)) s)) as [E | [_ E]].
    + rewrite E. exact Hu.
    + exact E.
Qed.

(** X2, witness: the unlocked demo device after an erase that is refused, a
    failed unlock attempt and an unknown opcode. *)
Lemma unlocked_stays_unlocked_witness :
  deviceLocked
    (run_frames Demo.platform
       [ (Demo.env_remote, Session.erase_zero);
         (Demo.env_remote, Demo.unlock_wrong);
         (Demo.env_remote, Demo.set_emulation) ]
       Demo.unlocked)
  = DEVICE_UNLOCKED.
Proof.
  apply (unlocked_stays_unlocked Demo.platform). reflexivity.
Defined.

Lemma locked_frame_keeps P env data s :
  deviceLocked s = DEVICE_LOCKED ->
  ramLocation s = 0 ->
  byte_at data 2 <> UPD_UNLOCK_DEVICE ->
  let s' := snd (handleMemoryRequests P env data s) in
  deviceLocked s' = DEVICE_LOCKED /\ flash s' = flash s /\
  ramLocation s' = 0 /\ ramBuffer s' = ramBuffer s.
Proof.
  intros Hl Hz Hop s'. unfold s'. rewrite handle_state.
  set (s0 := set_pinInfo (negb (pinInfo s)) s).
  assert (Hl0 : deviceLocked s0 = DEVICE_LOCKED) by exact Hl.
  assert (Hne : deviceLocked s0 <> DEVICE_UNLOCKED)
    by (rewrite Hl0; apply lock_words_differ).
  split; [|split; [|split]].
  - destruct (run_command_lock P env data s0) as [E | [E _]];
      [rewrite E; exact Hl0 | contradiction].
  - destruct (run_command_flash P env data s0) as [E | [E _]];
      [exact E | contradiction].
  - destruct (run_command_cursor P env data s0) as [E | [E | [_ E]]];
      [rewrite E; exact Hz | exact E | contradiction].
  - destruct (run_command_buffer P env data s0) as [E | [_ [E _]]];
      [exact E | contradiction].
Qed.

(** X3. From reset, a sequence of frames none of which is an
    [UPD_UNLOCK_DEVICE] leaves the device locked, the flash as it was at
    reset, the cursor at 0 and the staging buffer all zero: without the
    unlock command nothing on the bus reaches flash or staging. *)
Theorem locked_until_unlock_frame (P : Platform)
    (frames : list (Env * list byte)) (fl : Flash) (tel : Telegram)
    (pin : bool) :
  Forall (fun f => byte_at (snd f) 2 <> UPD_UNLOCK_DEVICE) frames ->
  let s' := run_frames P frames (boot fl tel pin) in
  deviceLocked s' = DEVICE_LOCKED /\
  flash s' = fl /\
  ramLocation s' = 0 /\
  ramBuffer s' = repeat x00 (Z.to_nat RAM_CAP).
Proof.
  intros Hall.
  assert (Hgen : forall s,
             deviceLocked s = DEVICE_LOCKED -> ramLocation s = 0 ->
             deviceLocked (run_frames P frames s) = DEVICE_LOCKED /\
             flash (run_frames P frames s) = flash s /\
             ramLocation (run_frames P frames s) = 0 /\
             ramBuffer (run_frames P frames s) = ramBuffer s).
  { induction Hall as [|f frames Hf Hall IH]; intros s Hl Hz.
    - auto.
    - rewrite run_frames_cons.
      destruct (locked_frame_keeps P (fst f) (snd f) s Hl Hz Hf)
        as [H1 [H2 [H3 H4]]].
      destruct (IH _ H1 H3) as [K1 [K2 [K3 K4]]].
      rewrite K2, K4, H2, H4. auto. }
  intros s'. apply (Hgen (boot fl tel pin)); reflexivity.
Qed.

(** X3, witness: erase, send, program and get-last-error frames sent to the
    demo device at reset. *)
Lemma locked_until_unlock_frame_witness :
  let s' :=
    run_frames Demo.platform
      [ (Demo.env_remote, Demo.erase_five);
        (Demo.env_remote, Demo.send_five);
        (Demo.env_remote, Demo.program_five Demo.crc_five);
        (Demo.env_operator, Demo.get_last_error) ]
      (boot (fun _ => xff) (fun _ => x00) false) in
  deviceLocked s' = DEVICE_LOCKED /\
  flash s' = (fun _ => xff) /\
  ramLocation s' = 0 /\
  ramBuffer s' = repeat x00 (Z.to_nat RAM_CAP).
Proof.
  apply (locked_until_unlock_frame Demo.platform).
  repeat constructor; vm_compute; discriminate.
Defined.

(** ** The staging buffer and its cursor *)

Lemma send_payload_length (data : list byte) :
  length (send_payload data) = Z.to_nat (send_length data).
Proof. unfold send_payload. apply frame_bytes_length. Qed.

(** X4. In every state the device can reach, the cursor lies between 0 and
    4095 and the buffer has its 4096 bytes; so whenever the guard of
    [UPD_SEND_DATA] lets a frame through, the bytes it copies land inside
    the buffer. *)
Theorem cursor_stays_in_buffer (P : Platform) (s : State) :
  reachable P s ->
  0 <= ramLocation s <= RAM_CAP - 1 /\
  length (ramBuffer s) = Z.to_nat RAM_CAP /\
  (forall data,
      to_u32 (ramLocation s + send_length data) < RAM_CAP ->
      (Z.to_nat (ramLocation s) + length (send_payload data)
       <= length (ramBuffer s))%nat).
Proof.
  intros Hr. destruct (reachable_inv P s Hr) as [_ [Hc [_ Hlen]]].
  split; [lia|]. split; [exact Hlen|].
  intros data Hg.
  pose proof (land_0x0f_range (byte_at data 0)) as Hn.
  fold (send_length data) in Hn.
  rewrite to_u32_small in Hg by (unfold RAM_CAP in *; lia).
  rewrite send_payload_length, Hlen. lia.
Qed.

(** X4, witness: the demo device with five bytes staged. *)
Lemma cursor_stays_in_buffer_witness :
  0 <= ramLocation Demo.staged_five <= RAM_CAP - 1 /\
  length (ramBuffer Demo.staged_five) = Z.to_nat RAM_CAP.
Proof.
  destruct (cursor_stays_in_buffer Demo.platform Demo.staged_five)
    as [H1 [H2 _]].
  - do 2 apply reach_frame. apply reach_boot.
  - split; assumption.
Defined.

(** X5. [UPD_ERASE_SECTOR], [UPD_PROGRAM] and [UPD_UPDATE_BOOT_DESC] put the
    cursor back to 0 in every case: locked or unlocked, accepted or
    refused, whatever the flash driver answers. The lock word is left as
    it was. *)
Theorem commit_commands_reset_cursor (P : Platform) (env : Env)
    (data : list byte) (s : State) :
  In (byte_at data 2)
     [ UPD_ERASE_SECTOR; UPD_PROGRAM; UPD_UPDATE_BOOT_DESC ] ->
  let s' := snd (handleMemoryRequests P env data s) in
  ramLocation s' = 0 /\ deviceLocked s' = deviceLocked s.
Proof.
  intros Hop s'. unfold s'. rewrite handle_state.
  destruct Hop as [Hop | [Hop | [Hop | []]]]; symmetry in Hop.
  - rewrite (run_ERASE_SECTOR _ _ _ _ Hop). unfold_cases.
    split_ifs; st_simpl; auto.
  - rewrite (run_PROGRAM _ _ _ _ Hop). unfold_cases.
    split_ifs; st_simpl; auto.
  - rewrite (run_UPDATE_BOOT_DESC _ _ _ _ Hop). unfold_cases.
    split_ifs; st_simpl; auto.
Qed.

(** X5, witness: a program frame with a wrong CRC, refused, still resets the
    cursor of the demo device from 5 to 0. *)
Lemma commit_commands_reset_cursor_witness :
  ramLocation Demo.staged_five = 5 /\
  ramLocation
    (snd (handleMemoryRequests Demo.platform Demo.env_remote
            (Demo.program_five 0) Demo.staged_five)) = 0.
Proof.
  split; [reflexivity|].
  apply (commit_commands_reset_cursor Demo.platform Demo.env_remote
           (Demo.program_five 0) Demo.staged_five).
  right. left. reflexivity.
Defined.

(** X6. The contents of the staging buffer change only in an
    [UPD_SEND_DATA] frame that an unlocked device accepts: no other command,
    and no refused frame, touches them. In particular programming does not
    clear the staged bytes. *)
Theorem staging_written_only_by_send_data (P : Platform) (env : Env)
    (data : list byte) (s : State) :
  ramBuffer (snd (handleMemoryRequests P env data s)) <> ramBuffer s ->
  byte_at data 2 = UPD_SEND_DATA /\
  deviceLocked s = DEVICE_UNLOCKED /\
  to_u32 (ramLocation s + send_length data) < RAM_CAP.
Proof.
  intros Hch. rewrite handle_state in Hch.
  destruct (run_command_buffer P env data (set_pinInfo (negb (pinInfo s)) s))
    as [Hsame | Hok].
  - exfalso. apply Hch. exact Hsame.
  - exact Hok.
Qed.

(** X6, witness: the five bytes sent to the unlocked demo device. *)
Lemma staging_written_only_by_send_data_witness :
  byte_at Demo.send_five 2 = UPD_SEND_DATA /\
  deviceLocked Demo.unlocked = DEVICE_UNLOCKED /\
  to_u32 (ramLocation Demo.unlocked + send_length Demo.send_five) < RAM_CAP.
Proof.
  apply (staging_written_only_by_send_data Demo.platform Demo.env_remote
           Demo.send_five Demo.unlocked).
  intros E. apply (f_equal (fun b => nth 0 b x00)) in E.
  vm_compute in E. discriminate.
Defined.

Ltac inner_ifs :=
  repeat (st_simpl;
          match goal with
          | |- context [if ?c then _ else _] =>
              lazymatch c with
              | context [if _ then _ else _] => fail
              | _ => destruct c eqn:?
              end
          end);
  st_simpl.

(** A reader of the buffer sees the same bytes in two states with the same
    [ramBuffer]. *)
Ltac ram_bytes_of s :=
  repeat match goal with
  | |- context [ram_bytes ?e ?st ?n] =>
      lazymatch st with
      | s => fail
      | _ => change (ram_bytes e st n) with (ram_bytes e s n)
      end
  end.

Ltac ram_bytes_of_in H s :=
  repeat match type of H with
  | context [ram_bytes ?e ?st ?n] =>
      lazymatch st with
      | s => fail
      | _ => change (ram_bytes e st n) with (ram_bytes e s n) in H
      end
  end.

(** X7. The three commit commands never read the cursor: the PDU and the
    state they leave are the same whatever [ramLocation] held. So
    [UPD_PROGRAM] does not compare its count with the number of bytes
    staged; it checks and programs the first [count] bytes of the buffer as
    they are. *)
Theorem commit_commands_ignore_cursor (P : Platform) (env : Env)
    (data : list byte) (s : State) (c : Z) :
  In (byte_at data 2)
     [ UPD_ERASE_SECTOR; UPD_PROGRAM; UPD_UPDATE_BOOT_DESC ] ->
  handleMemoryRequests P env data (set_ramLocation c s)
  = handleMemoryRequests P env data s.
Proof.
  intros Hop. unfold handleMemoryRequests.
  destruct Hop as [Hop | [Hop | [Hop | []]]]; symmetry in Hop.
  - rewrite !(run_ERASE_SECTOR _ _ _ _ Hop). unfold_cases.
    inner_ifs; reflexivity.
  - rewrite !(run_PROGRAM _ _ _ _ Hop). unfold_cases. st_simpl.
    ram_bytes_of s. inner_ifs; ram_bytes_of s; inner_ifs; reflexivity.
  - rewrite !(run_UPDATE_BOOT_DESC _ _ _ _ Hop). unfold_cases. st_simpl.
    ram_bytes_of s. inner_ifs; ram_bytes_of s; inner_ifs; reflexivity.
Qed.

(** X7, witness: with the cursor put back to 0, so that nothing counts as
    staged, the program frame for five bytes is still accepted and writes
    the bytes left in the buffer. *)
Lemma commit_commands_ignore_cursor_witness :
  let r := handleMemoryRequests Demo.platform Demo.env_remote
             (Demo.program_five Demo.crc_five)
             (set_ramLocation 0 Demo.staged_five) in
  fst r = T_ACK_PDU /\
  map (flash (snd r)) [ 0x4000; 0x4001; 0x4002; 0x4003; 0x4004 ]
  = [ xde; xad; xbe; xef; x2a ].
Proof.
  intros r. unfold r.
  rewrite (commit_commands_ignore_cursor Demo.platform Demo.env_remote
             (Demo.program_five Demo.crc_five) Demo.staged_five 0)
    by (right; left; reflexivity).
  vm_compute. split; reflexivity.
Defined.

(** ** Unlocking, once more *)

(** X8. With the program pin asserted ([progPinStatus] answers false) an
    [UPD_UNLOCK_DEVICE] frame unlocks the device whatever its payload and
    whatever [lastError] held, a stale [UPD_UID_MISSMATCH] included; the
    unique ID is not consulted, [lastError] is the success code and the
    frame is ACKed. *)
Theorem unlock_by_program_pin (P : Platform) (env : Env) (data : list byte)
    (s : State) :
  byte_at data 2 = UPD_UNLOCK_DEVICE ->
  progPinStatus env = false ->
  let r := handleMemoryRequests P env data s in
  snd r = set_lastError (IAP_SUCCESS P)
            (set_deviceLocked DEVICE_UNLOCKED
               (set_pinInfo (negb (pinInfo s)) s)) /\
  fst r = T_ACK_PDU.
Proof.
  intros Hop Hpin r.
  assert (Hs : snd r = set_lastError (IAP_SUCCESS P)
                         (set_deviceLocked DEVICE_UNLOCKED
                            (set_pinInfo (negb (pinInfo s)) s))).
  { unfold r. rewrite handle_state, (run_UNLOCK_DEVICE _ _ _ _ Hop).
    unfold case_UPD_UNLOCK_DEVICE. rewrite Hpin. reflexivity. }
  split; [exact Hs|].
  apply handle_ack. fold r. rewrite Hs. reflexivity.
Qed.

(** X8, witness: after a failed attempt over the bus, the operator's pin
    unlocks the demo device although the frame carries the wrong ID. *)
Lemma unlock_by_program_pin_witness :
  let r := handleMemoryRequests Demo.platform Demo.env_operator
             Demo.unlock_wrong Demo.after_wrong_unlock in
  deviceLocked (snd r) = DEVICE_UNLOCKED /\ fst r = T_ACK_PDU.
Proof.
  intros r.
  destruct (unlock_by_program_pin Demo.platform Demo.env_operator
              Demo.unlock_wrong Demo.after_wrong_unlock) as [Hs Ha];
    try reflexivity.
  fold r in Hs, Ha. split; [rewrite Hs; reflexivity | exact Ha].
Defined.

(** X9. Reading the error re-arms the unlock: whatever state the device is
    in, an [UPD_GET_LAST_ERROR] frame followed by an [UPD_UNLOCK_DEVICE]
    frame that carries the right ID (pin deasserted, ID read successful)
    leaves the device unlocked with [lastError] the success code. *)
Theorem unlock_after_error_read (P : Platform) (env1 env2 : Env)
    (data1 data2 : list byte) (s : State) :
  byte_at data1 2 = UPD_GET_LAST_ERROR ->
  byte_at data2 2 = UPD_UNLOCK_DEVICE ->
  progPinStatus env2 = true ->
  fst (iapReadUID env2) = IAP_SUCCESS P ->
  ~ uid_mismatch data2 (snd (iapReadUID env2)) ->
  let s' := run_frames P [ (env1, data1); (env2, data2) ] s in
  deviceLocked s' = DEVICE_UNLOCKED /\ lastError s' = IAP_SUCCESS P.
Proof.
  intros Hop1 Hop2 Hpin Hread Hm s'. unfold s', run_frames.
  cbn [fold_left fst snd].
  set (s1 := snd (handleMemoryRequests P env1 data1 s)).
  assert (H1 : lastError s1 = IAP_SUCCESS P).
  { unfold s1. rewrite handle_state, (run_GET_LAST_ERROR _ _ _ _ Hop1).
    reflexivity. }
  rewrite (unlock_remote_state _ _ _ _ Hop2 Hpin). cbv zeta.
  rewrite Hread, Z.eqb_refl, (uid_sweep_match _ _ _ Hm). st_simpl.
  pose proof (IAP_SUCCESS_range P) as Hr.
  destruct (Z.eqb_spec (lastError s1) UPD_UID_MISSMATCH) as [E|_].
  - exfalso. rewrite H1 in E. unfold UPD_UID_MISSMATCH in E. lia.
  - cbn [negb]. st_simpl. auto.
Qed.

(** X9, witness: the demo device after a failed attempt; the error is read,
    then the right ID unlocks. *)
Lemma unlock_after_error_read_witness :
  let s' :=
    run_frames Demo.platform
      [ (Demo.env_remote, Demo.get_last_error);
        (Demo.env_remote, Demo.unlock_right) ]
      Demo.after_wrong_unlock in
  deviceLocked s' = DEVICE_UNLOCKED /\ lastError s' = 0.
Proof.
  apply (unlock_after_error_read Demo.platform Demo.env_remote
           Demo.env_remote Demo.get_last_error Demo.unlock_right
           Demo.after_wrong_unlock); try reflexivity.
  intros [i [Hi Hne]]. apply Hne.
  do 12 (destruct i as [|i]; [reflexivity|]). lia.
Defined.

(** ** Replies *)

(** X10. [UPD_REQUEST_UID] does not look at the lock, only at the program
    pin. With the pin deasserted it fails with [UPD_DEVICE_LOCKED], is
    NACKed and leaves flag and telegram alone. With the pin asserted the
    status of the ID read becomes [lastError]; when it is the success code
    a reply is flagged with header 0x6F 0x42 0x4C 0x00 0x20 at bytes 5 to 9
    and the first twelve ID bytes at bytes 10 to 21, and the frame is
    ACKed; otherwise no reply is flagged. The lock word is never changed. *)
Theorem request_uid_needs_pin (P : Platform) (env : Env) (data : list byte)
    (s : State) :
  byte_at data 2 = UPD_REQUEST_UID ->
  let r := handleMemoryRequests P env data s in
  let status := to_u32 (fst (iapReadUID env)) in
  deviceLocked (snd r) = deviceLocked s /\
  (progPinStatus env = true ->
   lastError (snd r) = UPD_DEVICE_LOCKED /\ fst r = T_NACK_PDU /\
   sendTel (snd r) = sendTel s /\ sendTelegram (snd r) = sendTelegram s) /\
  (progPinStatus env = false -> status = IAP_SUCCESS P ->
   fst r = T_ACK_PDU /\ sendTel (snd r) = true /\
   map (sendTelegram (snd r)) [ 5; 6; 7; 8; 9 ]%nat
   = [ x6f; x42; x4c; x00; x20 ] /\
   map (sendTelegram (snd r)) (seq 10 12)
   = frame_bytes (snd (iapReadUID env)) 0 12) /\
  (progPinStatus env = false -> status <> IAP_SUCCESS P ->
   lastError (snd r) = status /\ fst r = T_NACK_PDU /\
   sendTel (snd r) = sendTel s /\ sendTelegram (snd r) = sendTelegram s).
Proof.
  intros Hop r status.
  assert (Hs : snd r = case_UPD_REQUEST_UID P env
                         (set_pinInfo (negb (pinInfo s)) s)).
  { unfold r. rewrite handle_state. apply run_REQUEST_UID. exact Hop. }
  pose proof (handle_pdu P env data s) as Hp. fold r in Hp.
  unfold case_UPD_REQUEST_UID in Hs. st_simpl. fold status in Hs.
  split; [|split; [|split]].
  - rewrite Hs. split_ifs; reflexivity.
  - intros Hpin. rewrite Hpin in Hs. cbn [negb] in Hs.
    split; [rewrite Hs; reflexivity|].
    split; [|rewrite Hs; auto].
    apply handle_nack. fold r. rewrite Hs. st_simpl.
    unfold UPD_DEVICE_LOCKED. lia.
  - intros Hpin Hok. rewrite Hpin, Hok, Z.eqb_refl in Hs. cbn [negb] in Hs.
    split; [apply handle_ack; fold r; rewrite Hs; reflexivity|].
    rewrite Hs. repeat split; reflexivity.
  - intros Hpin Hbad. rewrite Hpin in Hs. cbn [negb] in Hs.
    apply Z.eqb_neq in Hbad. rewrite Hbad in Hs.
    split; [rewrite Hs; reflexivity|].
    split; [|rewrite Hs; auto].
    rewrite Hp, Hs. st_simpl. rewrite Hbad. reflexivity.
Qed.

(** X10, witness: the locked demo device answers the operator with its
    ID. *)
Lemma request_uid_needs_pin_witness :
  let r := handleMemoryRequests Demo.platform Demo.env_operator
             Session.request_uid Demo.at_reset in
  fst r = T_ACK_PDU /\
  map (sendTelegram (snd r)) (seq 10 12)
  = [ x11; x22; x33; x44; x55; x66; x77; x88; x99; xaa; xbb; xcc ] /\
  deviceLocked (snd r) = DEVICE_LOCKED.
Proof.
  intros r.
  destruct (request_uid_needs_pin Demo.platform Demo.env_operator
              Session.request_uid Demo.at_reset) as [Hl [_ [H _]]];
    [reflexivity|].
  destruct H as [Ha [_ [_ Hb]]]; try reflexivity.
  fold r in Hl, Ha, Hb.
  split; [exact Ha|]. split; [rewrite Hb; reflexivity | exact Hl].
Defined.

(** X11. [UPD_APP_VERSION_REQUEST] is not lock-gated. It reads the version
    pointer from the descriptor slot at
    [FIRST_SECTOR - (1 + data[3]) * BOOT_BLOCK_SIZE]; when the pointer is
    below 0x50000 the frame is ACKed and the reply carries the header
    0x6F 0x42 0x4C 0x00 0x22 and the twelve flash bytes at the pointer;
    otherwise [lastError] is [UPD_APPLICATION_NOT_STARTABLE], the frame is
    NACKed and neither flag nor telegram is touched. Lock and flash stay as
    they were. *)
Theorem app_version_request_replies (P : Platform) (env : Env)
    (data : list byte) (s : State) :
  byte_at data 2 = UPD_APP_VERSION_REQUEST ->
  let r := handleMemoryRequests P env data s in
  let slot :=
    to_u32 (FIRST_SECTOR P - (1 + byte_at data 3) * BOOT_BLOCK_SIZE P) in
  let pointer :=
    getAppVersion (descriptor_cast P (bytes_at (flash s) slot 256)) in
  deviceLocked (snd r) = deviceLocked s /\
  flash (snd r) = flash s /\
  (pointer < 0x50000 ->
   fst r = T_ACK_PDU /\ lastError (snd r) = IAP_SUCCESS P /\
   sendTel (snd r) = true /\
   map (sendTelegram (snd r)) [ 5; 6; 7; 8; 9 ]%nat
   = [ x6f; x42; x4c; x00; x22 ] /\
   map (sendTelegram (snd r)) (seq 10 12) = bytes_at (flash s) pointer 12) /\
  (0x50000 <= pointer ->
   fst r = T_NACK_PDU /\ lastError (snd r) = UPD_APPLICATION_NOT_STARTABLE /\
   sendTel (snd r) = sendTel s /\ sendTelegram (snd r) = sendTelegram s).
Proof.
  intros Hop r slot pointer.
  assert (Hs : snd r = case_UPD_APP_VERSION_REQUEST P data
                         (set_pinInfo (negb (pinInfo s)) s)).
  { unfold r. rewrite handle_state. apply run_APP_VERSION_REQUEST. exact Hop. }
  unfold case_UPD_APP_VERSION_REQUEST in Hs. st_simpl.
  fold slot in Hs. fold pointer in Hs.
  split; [rewrite Hs; split_ifs; reflexivity|].
  split; [rewrite Hs; split_ifs; reflexivity|].
  split.
  - intros Hlt. apply Z.ltb_lt in Hlt. rewrite Hlt in Hs.
    split; [apply handle_ack; fold r; rewrite Hs; reflexivity|].
    rewrite Hs. repeat split; reflexivity.
  - intros Hge. apply Z.ltb_ge in Hge. rewrite Hge in Hs.
    split; [|rewrite Hs; auto].
    apply handle_nack. fold r. rewrite Hs. st_simpl.
    unfold UPD_APPLICATION_NOT_STARTABLE. lia.
Qed.

(** X11, witness: a locked demo device whose slot 0 points at 0x4800
    replies with the twelve bytes stored there; with erased flash the
    pointer reads 0xFFFFFFFF and the request is refused. *)
Lemma app_version_request_replies_witness :
  let good := handleMemoryRequests Demo.platform Demo.env_remote
                Session.app_version Session.versioned in
  let bad := handleMemoryRequests Demo.platform Demo.env_remote
               Session.app_version Demo.at_reset in
  (fst good = T_ACK_PDU /\
   map (sendTelegram (snd good)) (seq 10 12)
   = [ x30; x31; x32; x33; x34; x35; x36; x37; x38; x39; x3a; x3b ]) /\
  (fst bad = T_NACK_PDU /\
   lastError (snd bad) = UPD_APPLICATION_NOT_STARTABLE).
Proof.
  intros good bad. split.
  - destruct (app_version_request_replies Demo.platform Demo.env_remote
                Session.app_version Session.versioned)
      as [_ [_ [H _]]]; [reflexivity|].
    destruct H as [Ha [_ [_ [_ Hb]]]]; [vm_compute; reflexivity|].
    fold good in Ha, Hb.
    split; [exact Ha | rewrite Hb; vm_compute; reflexivity].
  - destruct (app_version_request_replies Demo.platform Demo.env_remote
                Session.app_version Demo.at_reset)
      as [_ [_ [_ H]]]; [reflexivity|].
    destruct H as [Ha [Hb _]]; [vm_compute; discriminate|].
    split; assumption.
Defined.

(** X12. [UPD_REQ_DATA] is never ACKed and changes nothing but
    [lastError]: [UDP_NOT_IMPLEMENTED] (0xFFFF) on an unlocked device,
    [UPD_DEVICE_LOCKED] otherwise. *)
Theorem req_data_not_implemented (P : Platform) (env : Env)
    (data : list byte) (s : State) :
  byte_at data 2 = UPD_REQ_DATA ->
  let r := handleMemoryRequests P env data s in
  fst r = T_NACK_PDU /\
  snd r = set_lastError
            (if deviceLocked s =? DEVICE_UNLOCKED then UDP_NOT_IMPLEMENTED
             else UPD_DEVICE_LOCKED)
            (set_pinInfo (negb (pinInfo s)) s) /\
  UDP_NOT_IMPLEMENTED = 0xFFFF.
Proof.
  intros Hop r.
  assert (Hs : snd r = set_lastError
                         (if deviceLocked s =? DEVICE_UNLOCKED
                          then UDP_NOT_IMPLEMENTED else UPD_DEVICE_LOCKED)
                         (set_pinInfo (negb (pinInfo s)) s)).
  { unfold r. rewrite handle_state, (run_REQ_DATA _ _ _ _ Hop).
    unfold case_UPD_REQ_DATA. st_simpl.
    destruct (deviceLocked s =? DEVICE_UNLOCKED); reflexivity. }
  split; [|split; [exact Hs | reflexivity]].
  apply handle_nack. fold r. rewrite Hs. st_simpl.
  destruct (deviceLocked s =? DEVICE_UNLOCKED);
    [unfold UDP_NOT_IMPLEMENTED | unfold UPD_DEVICE_LOCKED]; lia.
Qed.

(** X12, witness: the unlocked demo device. *)
Lemma req_data_not_implemented_witness :
  let r := handleMemoryRequests Demo.platform Demo.env_remote
             Session.req_data Demo.unlocked in
  fst r = T_NACK_PDU /\ lastError (snd r) = 0xFFFF.
Proof.
  intros r.
  destruct (req_data_not_implemented Demo.platform Demo.env_remote
              Session.req_data Demo.unlocked) as [Ha [Hs _]];
    [reflexivity|].
  fold r in Ha, Hs. split; [exact Ha | rewrite Hs; reflexivity].
Defined.

Lemma run_command_reply P env data s :
  (sendTelegram (run_command P env data s) = sendTelegram s /\
   sendTel (run_command P env data s) = sendTel s) \/
  (lastError (run_command P env data s) = IAP_SUCCESS P /\
   In (byte_at data 2)
      [ UPD_GET_LAST_ERROR; UPD_REQUEST_UID; UPD_APP_VERSION_REQUEST ]).
Proof.
  unfold run_command.
  destruct (Z.eqb_spec (byte_at data 2) UPD_UNLOCK_DEVICE) as [_|_].
  { left. unfold case_UPD_UNLOCK_DEVICE.
    destruct (negb (progPinStatus env)); [auto|].
    destruct (IAP_SUCCESS P =? fst (iapReadUID env)); [sweep_cases|];
      split_ifs; auto. }
  destruct (Z.eqb_spec (byte_at data 2) UPD_REQUEST_UID) as [E|_].
  { unfold case_UPD_REQUEST_UID.
    destruct (negb (progPinStatus env)); [|left; auto].
    st_simpl.
    destruct (Z.eqb_spec (to_u32 (fst (iapReadUID env))) (IAP_SUCCESS P))
      as [Hok|_]; [|left; auto].
    right. split; [exact Hok|]. rewrite E. simpl. auto. }
  destruct (Z.eqb_spec (byte_at data 2) UPD_APP_VERSION_REQUEST) as [E|_].
  { unfold case_UPD_APP_VERSION_REQUEST.
    match goal with |- context [if ?c then _ else _] => destruct c end;
      [|left; auto].
    right. split; [reflexivity|]. rewrite E. simpl. auto. }
  destruct (Z.eqb_spec (byte_at data 2) UPD_ERASE_SECTOR) as [_|_].
  { left. unfold_cases. split_ifs; auto. }
  destruct (Z.eqb_spec (byte_at data 2) UPD_SEND_DATA) as [_|_].
  { left. unfold_cases. split_ifs; auto. }
  destruct (Z.eqb_spec (byte_at data 2) UPD_PROGRAM) as [_|_].
  { left. unfold_cases. split_ifs; auto. }
  destruct (Z.eqb_spec (byte_at data 2) UPD_UPDATE_BOOT_DESC) as [_|_].
  { left. unfold_cases. split_ifs; auto. }
  destruct (Z.eqb_spec (byte_at data 2) UPD_REQ_DATA) as [_|_].
  { left. unfold_cases. split_ifs; auto. }
  destruct (Z.eqb_spec (byte_at data 2) UPD_GET_LAST_ERROR) as [E|_].
  { right. split; [reflexivity|]. rewrite E. simpl. auto. }
  left. auto.
Qed.

(** X13. A frame that is NACKed never flags or writes a reply: the caller's
    flag and the outbound telegram change only in an ACKed
    [UPD_GET_LAST_ERROR], [UPD_REQUEST_UID] or [UPD_APP_VERSION_REQUEST]. *)
Theorem reply_only_when_acked (P : Platform) (env : Env) (data : list byte)
    (s : State) :
  let r := handleMemoryRequests P env data s in
  sendTelegram (snd r) <> sendTelegram s \/ sendTel (snd r) <> sendTel s ->
  fst r = T_ACK_PDU /\
  In (byte_at data 2)
     [ UPD_GET_LAST_ERROR; UPD_REQUEST_UID; UPD_APP_VERSION_REQUEST ].
Proof.
  intros r Hch.
  assert (Hs : snd r = run_command P env data
                         (set_pinInfo (negb (pinInfo s)) s))
    by apply handle_state.
  destruct (run_command_reply P env data (set_pinInfo (negb (pinInfo s)) s))
    as [[H1 H2] | [He Hop]].
  - exfalso. rewrite Hs in Hch. destruct Hch as [Hch|Hch]; apply Hch.
    + exact H1.
    + exact H2.
  - split; [|exact Hop]. apply handle_ack. fold r. rewrite Hs. exact He.
Qed.

(** X13, witness: the error read from the demo device flags a reply, in an
    ACKed [UPD_GET_LAST_ERROR]. *)
Lemma reply_only_when_acked_witness :
  fst (handleMemoryRequests Demo.platform Demo.env_remote
         Demo.get_last_error Demo.after_wrong_unlock) = T_ACK_PDU /\
  In (byte_at Demo.get_last_error 2)
     [ UPD_GET_LAST_ERROR; UPD_REQUEST_UID; UPD_APP_VERSION_REQUEST ].
Proof.
  apply (reply_only_when_acked Demo.platform Demo.env_remote
           Demo.get_last_error Demo.after_wrong_unlock).
  right. vm_compute. discriminate.
Defined.

(** ** Erasing and programming on an unlocked device *)

(** X14. [UPD_ERASE_SECTOR] on an unlocked device: sector 0 and every
    sector between [ADDRESS2SECTOR (__vectors_start__)] and
    [ADDRESS2SECTOR (_etext)] is refused with
    [UPD_SECTOR_NOT_ALLOWED_TO_ERASE], a NACK and the flash untouched; for
    every other sector the flash and [lastError] are what [iapEraseSector]
    returns for that sector. *)
Theorem erase_sector_guarded (P : Platform) (env : Env) (data : list byte)
    (s : State) :
  byte_at data 2 = UPD_ERASE_SECTOR ->
  deviceLocked s = DEVICE_UNLOCKED ->
  let sector := byte_at data 3 in
  let protected :=
    sector = 0 \/
    ADDRESS2SECTOR (__vectors_start__ P) <= sector
    <= ADDRESS2SECTOR (_etext P) in
  let r := handleMemoryRequests P env data s in
  (protected ->
   lastError (snd r) = UPD_SECTOR_NOT_ALLOWED_TO_ERASE /\
   fst r = T_NACK_PDU /\ flash (snd r) = flash s) /\
  (~ protected ->
   flash (snd r) = snd (iapEraseSector P sector (flash s)) /\
   lastError (snd r) = to_u32 (fst (iapEraseSector P sector (flash s)))).
Proof.
  intros Hop Hun sector protected r.
  assert (Hs : snd r = case_UPD_ERASE_SECTOR P data
                         (set_pinInfo (negb (pinInfo s)) s)).
  { unfold r. rewrite handle_state. apply run_ERASE_SECTOR. exact Hop. }
  unfold case_UPD_ERASE_SECTOR in Hs. st_simpl. fold sector in Hs.
  rewrite Hun, Z.eqb_refl in Hs.
  pose proof (sectorAllowedToErease_false P sector) as Hpol.
  destruct (sectorAllowedToErease P sector).
  - split.
    + intros Hp. apply Hpol in Hp. discriminate.
    + intros _. rewrite Hs. auto.
  - split.
    + intros _. split; [rewrite Hs; reflexivity|].
      split; [|rewrite Hs; reflexivity].
      apply handle_nack. fold r. rewrite Hs. st_simpl.
      unfold UPD_SECTOR_NOT_ALLOWED_TO_ERASE. lia.
    + intros Hn. exfalso. apply Hn. apply Hpol. reflexivity.
Qed.

(** X14, witness: the unlocked demo device refuses to erase sector 0. *)
Lemma erase_sector_guarded_witness :
  let r := handleMemoryRequests Demo.platform Demo.env_remote
             Session.erase_zero Demo.unlocked in
  lastError (snd r) = UPD_SECTOR_NOT_ALLOWED_TO_ERASE /\
  fst r = T_NACK_PDU /\ flash (snd r) = flash Demo.unlocked.
Proof.
  destruct (erase_sector_guarded Demo.platform Demo.env_remote
              Session.erase_zero Demo.unlocked) as [H _];
    try reflexivity.
  apply H. left. reflexivity.
Defined.

(** X15. [UPD_PROGRAM] on an unlocked device with a target the policy
    refuses (start not below [__vectors_start__], end, in 32-bit
    arithmetic, not above [_etext]): [lastError] is
    [UPD_ADDRESS_NOT_ALLOWED_TO_FLASH], the frame is NACKed and the flash is
    untouched, whatever CRC the frame carries. *)
Theorem program_refused_in_updater (P : Platform) (env : Env)
    (data : list byte) (s : State) :
  byte_at data 2 = UPD_PROGRAM ->
  deviceLocked s = DEVICE_UNLOCKED ->
  let count := be_value (skipn 3 data) in
  let address := be_value (skipn 7 data) in
  address >= __vectors_start__ P ->
  to_u32 (address + count) <= _etext P ->
  let r := handleMemoryRequests P env data s in
  lastError (snd r) = UPD_ADDRESS_NOT_ALLOWED_TO_FLASH /\
  fst r = T_NACK_PDU /\
  flash (snd r) = flash s.
Proof.
  intros Hop Hun count address Hlo Hhi r.
  assert (Hs : snd r = case_UPD_PROGRAM P env data
                         (set_pinInfo (negb (pinInfo s)) s)).
  { unfold r. rewrite handle_state. apply run_PROGRAM. exact Hop. }
  unfold case_UPD_PROGRAM in Hs. st_simpl.
  change (3 + 4)%nat with 7%nat in Hs.
  rewrite !streamToUIn32_be in Hs. fold count address in Hs.
  rewrite Hun, Z.eqb_refl in Hs.
  assert (Hno : addressAllowedToProgram P address count = false)
    by (apply addressAllowedToProgram_false; auto).
  rewrite Hno in Hs.
  split; [rewrite Hs; reflexivity|]. split; [|rewrite Hs; reflexivity].
  apply handle_nack. fold r. rewrite Hs. st_simpl.
  unfold UPD_ADDRESS_NOT_ALLOWED_TO_FLASH. lia.
Qed.

(** X15, witness: five bytes aimed at 0x2000, inside the demo updater, with
    the right CRC. *)
Lemma program_refused_in_updater_witness :
  let r := handleMemoryRequests Demo.platform Demo.env_remote
             Session.program_updater Demo.staged_five in
  lastError (snd r) = UPD_ADDRESS_NOT_ALLOWED_TO_FLASH /\
  fst r = T_NACK_PDU /\
  flash (snd r) = flash Demo.staged_five.
Proof.
  apply (program_refused_in_updater Demo.platform Demo.env_remote
           Session.program_updater Demo.staged_five).
  - reflexivity.
  - reflexivity.
  - vm_compute. discriminate.
  - vm_compute. discriminate.
Defined.

(** X16. [UPD_UPDATE_BOOT_DESC] on an unlocked device. A CRC that is not
    the one of the first 256 staged bytes gives [UDP_CRC_EROR], a NACK and
    untouched flash. With the right CRC and a descriptor that validates,
    the page [BOOT_BLOCK_PAGE - data[7]] is erased first; only when that
    erase reports success are the 256 bytes programmed at
    [FIRST_SECTOR - (1 + data[7]) * BOOT_BLOCK_SIZE], and [lastError] is
    the status of the program call; when the erase fails, its status is
    [lastError] and nothing is programmed. *)
Theorem update_boot_desc_erases_then_programs (P : Platform) (env : Env)
    (data : list byte) (s : State) :
  byte_at data 2 = UPD_UPDATE_BOOT_DESC ->
  deviceLocked s = DEVICE_UNLOCKED ->
  let r := handleMemoryRequests P env data s in
  let staged := ram_bytes env s 256 in
  let slot := byte_at data 7 in
  let address := to_u32 (FIRST_SECTOR P - (1 + slot) * BOOT_BLOCK_SIZE P) in
  let erased := iapErasePage P (BOOT_BLOCK_PAGE P - slot) (flash s) in
  let programmed := iapProgram P address staged 256 (snd erased) in
  (crc32 P 0xFFFFFFFF staged <> be_value (skipn 3 data) ->
   lastError (snd r) = UDP_CRC_EROR /\ fst r = T_NACK_PDU /\
   flash (snd r) = flash s) /\
  (crc32 P 0xFFFFFFFF staged = be_value (skipn 3 data) ->
   descriptor_valid P (flash s) (descriptor_cast P (ramBuffer s)) ->
   (to_u32 (fst erased) <> IAP_SUCCESS P ->
    lastError (snd r) = to_u32 (fst erased) /\ fst r = T_NACK_PDU /\
    flash (snd r) = snd erased) /\
   (to_u32 (fst erased) = IAP_SUCCESS P ->
    lastError (snd r) = to_u32 (fst programmed) /\
    flash (snd r) = snd programmed)).
Proof.
  intros Hop Hun r staged slot address erased programmed.
  assert (Hs : snd r = case_UPD_UPDATE_BOOT_DESC P env data
                         (set_pinInfo (negb (pinInfo s)) s)).
  { unfold r. rewrite handle_state. apply run_UPDATE_BOOT_DESC. exact Hop. }
  pose proof (handle_pdu P env data s) as Hp. fold r in Hp.
  unfold case_UPD_UPDATE_BOOT_DESC in Hs. st_simpl.
  ram_bytes_of_in Hs s.
  rewrite streamToUIn32_be in Hs.
  fold staged slot in Hs. fold address in Hs. fold erased in Hs.
  rewrite Hun, Z.eqb_refl in Hs.
  split.
  - intros Hne. apply Z.eqb_neq in Hne. rewrite Hne in Hs.
    split; [rewrite Hs; reflexivity|]. split; [|rewrite Hs; reflexivity].
    apply handle_nack. fold r. rewrite Hs. st_simpl. unfold UDP_CRC_EROR. lia.
  - intros Heq Hv. apply Z.eqb_eq in Heq. rewrite Heq in Hs.
    apply checkApplication_one in Hv. rewrite Hv in Hs.
    cbn [Z.eqb negb] in Hs.
    split.
    + intros Hbad. apply Z.eqb_neq in Hbad. rewrite Hbad in Hs.
      split; [rewrite Hs; reflexivity|]. split; [|rewrite Hs; reflexivity].
      rewrite Hp, Hs. st_simpl. rewrite Hbad. reflexivity.
    + intros Hok. rewrite Hok, Z.eqb_refl in Hs.
      rewrite Hs. split; reflexivity.
Qed.

(** X16, witness: a staged descriptor for the application at 0x4000 is
    valid, its page is erased and its first bytes are found in slot 0, at
    0x4F00, afterwards. *)
Lemma update_boot_desc_erases_then_programs_witness :
  let r := handleMemoryRequests Demo.platform Demo.env_remote
             Session.boot_desc_good Session.with_descriptor in
  lastError (snd r) = 0 /\
  map (flash (snd r)) [ 0x4F00; 0x4F01; 0x4F04; 0x4F05; 0x4FFF ]
  = [ x00; x40; x40; x40; x00 ].
Proof.
  intros r.
  destruct (update_boot_desc_erases_then_programs Demo.platform
              Demo.env_remote Session.boot_desc_good Session.with_descriptor)
    as [_ H]; try reflexivity.
  destruct H as [_ H].
  - vm_compute. reflexivity.
  - apply checkApplication_one. vm_compute. reflexivity.
  - destruct H as [He Hf]; [reflexivity|].
    fold r in He, Hf. split.
    + rewrite He. vm_compute. reflexivity.
    + rewrite Hf. vm_compute. reflexivity.
Defined.

(** ** Streaming *)

Lemma memcpy_app (p1 p2 buf : list byte) (off : nat) :
  memcpy (memcpy buf off p1) (off + length p1) p2 = memcpy buf off (p1 ++ p2).
Proof.
  revert buf off. induction p1 as [|b p1 IH]; intros buf off.
  - cbn [memcpy length app]. rewrite Nat.add_0_r. reflexivity.
  - cbn [memcpy length app].
    replace (off + S (length p1))%nat with (S off + length p1)%nat by lia.
    apply IH.
Qed.

Lemma send_data_step P env data s :
  engine_inv s ->
  deviceLocked s = DEVICE_UNLOCKED ->
  byte_at data 2 = UPD_SEND_DATA ->
  ramLocation s + send_length data < RAM_CAP ->
  snd (handleMemoryRequests P env data s)
  = set_lastError (IAP_SUCCESS P)
      (set_ramLocation (ramLocation s + send_length data)
         (set_ramBuffer
            (memcpy (ramBuffer s) (Z.to_nat (ramLocation s)) (send_payload data))
            (set_pinInfo (negb (pinInfo s)) s))).
Proof.
  intros [_ [Hc _]] Hun Hop Hroom.
  pose proof (land_0x0f_range (byte_at data 0)) as Hn.
  fold (send_length data) in Hn.
  rewrite handle_state, (run_SEND_DATA _ _ _ _ Hop).
  fold (send_length data). unfold case_UPD_SEND_DATA. st_simpl.
  rewrite Hun, Z.eqb_refl.
  rewrite (to_u32_small (ramLocation s + send_length data))
    by (unfold RAM_CAP in *; lia).
  apply Z.ltb_lt in Hroom. rewrite Hroom. reflexivity.
Qed.

Lemma send_stream_memcpy P (frames : list (Env * list byte)) :
  Forall (fun f => byte_at (snd f) 2 = UPD_SEND_DATA) frames ->
  forall s,
    engine_inv s ->
    deviceLocked s = DEVICE_UNLOCKED ->
    ramLocation s + Z.of_nat (length (stream_payload frames)) < RAM_CAP ->
    ramLocation (run_frames P frames s)
    = ramLocation s + Z.of_nat (length (stream_payload frames)) /\
    ramBuffer (run_frames P frames s)
    = memcpy (ramBuffer s) (Z.to_nat (ramLocation s)) (stream_payload frames) /\
    flash (run_frames P frames s) = flash s /\
    deviceLocked (run_frames P frames s) = DEVICE_UNLOCKED.
Proof.
  induction 1 as [|f frames Hf Hall IH]; intros s Hinv Hun Hroom.
  - cbn [run_frames fold_left stream_payload map concat length memcpy].
    repeat split; auto. cbn. lia.
  - unfold stream_payload in Hroom |- *. cbn [map concat] in Hroom |- *.
    fold (stream_payload frames) in Hroom |- *.
    rewrite length_app, send_payload_length in Hroom |- *.
    pose proof (land_0x0f_range (byte_at (snd f) 0)) as Hn.
    fold (send_length (snd f)) in Hn.
    assert (Hstep := send_data_step P (fst f) (snd f) s Hinv Hun Hf
                       ltac:(lia)).
    rewrite run_frames_cons.
    set (s1 := snd (handleMemoryRequests P (fst f) (snd f) s)) in *.
    assert (Hinv1 : engine_inv s1).
    { unfold s1. rewrite handle_state. apply run_command_inv. exact Hinv. }
    assert (Hc1 : ramLocation s1 = ramLocation s + send_length (snd f))
      by (rewrite Hstep; reflexivity).
    assert (Hb1 : ramBuffer s1
                  = memcpy (ramBuffer s) (Z.to_nat (ramLocation s))
                      (send_payload (snd f)))
      by (rewrite Hstep; reflexivity).
    assert (Hu1 : deviceLocked s1 = DEVICE_UNLOCKED)
      by (rewrite Hstep; exact Hun).
    assert (Hf1 : flash s1 = flash s) by (rewrite Hstep; reflexivity).
    destruct Hinv as [_ [Hc _]].
    destruct (IH s1 Hinv1 Hu1 ltac:(lia)) as [K1 [K2 [K3 K4]]].
    split; [lia|]. split; [|split; [congruence | exact K4]].
    rewrite K2, Hb1, Hc1, <- memcpy_app. f_equal.
    rewrite send_payload_length. lia.
Qed.

(** X17. A run of [UPD_SEND_DATA] frames on an unlocked device, as long as
    cursor plus total payload stays below 4096: the payloads end up in the
    buffer end to end, starting at the cursor, the cursor advances by
    their total length, and flash and lock are untouched. Started with the
    cursor at 0, the bytes that a following [UPD_PROGRAM] with that total
    as count checks and programs are exactly the payloads in the order
    sent. *)
Theorem send_data_stream (P : Platform) (frames : list (Env * list byte))
    (s : State) :
  reachable P s ->
  deviceLocked s = DEVICE_UNLOCKED ->
  Forall (fun f => byte_at (snd f) 2 = UPD_SEND_DATA) frames ->
  let total := Z.of_nat (length (stream_payload frames)) in
  ramLocation s + total < RAM_CAP ->
  let s' := run_frames P frames s in
  ramLocation s' = ramLocation s + total /\
  ramBuffer s'
  = firstn (Z.to_nat (ramLocation s)) (ramBuffer s)
    ++ stream_payload frames
    ++ skipn (Z.to_nat (ramLocation s + total)) (ramBuffer s) /\
  flash s' = flash s /\
  deviceLocked s' = DEVICE_UNLOCKED /\
  (ramLocation s = 0 ->
   forall env, ram_bytes env s' total = stream_payload frames).
Proof.
  intros Hr Hun Hall total Hroom s'.
  pose proof (reachable_inv P s Hr) as Hinv.
  destruct (send_stream_memcpy P frames Hall s Hinv Hun Hroom)
    as [K1 [K2 [K3 K4]]].
  destruct Hinv as [_ [Hc [_ Hlen]]].
  assert (Hsplice : ramBuffer s'
                    = firstn (Z.to_nat (ramLocation s)) (ramBuffer s)
                      ++ stream_payload frames
                      ++ skipn (Z.to_nat (ramLocation s + total)) (ramBuffer s)).
  { unfold s'. rewrite K2, memcpy_splice.
    - do 3 f_equal. unfold total. lia.
    - rewrite Hlen. unfold total, RAM_CAP in *. lia. }
  split; [exact K1|]. split; [exact Hsplice|].
  split; [exact K3|]. split; [exact K4|].
  intros Hz env.
  rewrite ram_bytes_firstn.
  - rewrite Hsplice, Hz. cbn [Z.to_nat firstn app].
    rewrite firstn_app.
    replace (Z.to_nat total - length (stream_payload frames))%nat with 0%nat
      by (unfold total; lia).
    cbn [firstn]. rewrite app_nil_r.
    apply firstn_all2. unfold total. lia.
  - unfold s'. rewrite K2, memcpy_length. exact Hlen.
  - lia.
Qed.

(** X17, witness: five bytes, then three, sent to the unlocked demo
    device. *)
Lemma send_data_stream_witness :
  let s' :=
    run_frames Demo.platform
      [ (Demo.env_remote, Demo.send_five);
        (Demo.env_remote, Session.send_three) ]
      Demo.unlocked in
  ramLocation s' = 8 /\
  ram_bytes Demo.env_remote s' 8
  = [ xde; xad; xbe; xef; x2a; x01; x02; x03 ].
Proof.
  intros s'.
  destruct (send_data_stream Demo.platform
              [ (Demo.env_remote, Demo.send_five);
                (Demo.env_remote, Session.send_three) ]
              Demo.unlocked) as [Hc [_ [_ [_ Hp]]]].
  - apply reach_frame. apply reach_boot.
  - reflexivity.
  - repeat constructor.
  - vm_compute. reflexivity.
  - fold s' in Hc, Hp. split; [exact Hc|].
    exact (Hp eq_refl Demo.env_remote).
Defined.

Lemma memcpy_zero_firstn (p buf : list byte) :
  (length p <= length buf)%nat ->
  firstn (length p) (memcpy buf 0 p) = p.
Proof.
  intros H. rewrite memcpy_splice by (cbn; lia).
  cbn [firstn app Nat.add].
  rewrite firstn_app, Nat.sub_diag. cbn [firstn].
  rewrite app_nil_r. apply firstn_all.
Qed.

(** X18. Round trip of an image fragment. On an unlocked device with the
    cursor at 0, a run of [UPD_SEND_DATA] frames whose payloads [B] total
    less than 4096 bytes, followed by an [UPD_PROGRAM] frame whose count is
    the length of [B], whose target the policy allows and whose CRC is the
    CRC-32 of [B]: the flash driver is asked to program exactly [B] at the
    address given, flash and [lastError] are what it returns, and the
    cursor is back at 0. *)
Theorem stream_then_program (P : Platform) (frames : list (Env * list byte))
    (env : Env) (data : list byte) (s : State) :
  reachable P s ->
  deviceLocked s = DEVICE_UNLOCKED ->
  ramLocation s = 0 ->
  Forall (fun f => byte_at (snd f) 2 = UPD_SEND_DATA) frames ->
  let B := stream_payload frames in
  Z.of_nat (length B) < RAM_CAP ->
  byte_at data 2 = UPD_PROGRAM ->
  be_value (skipn 3 data) = Z.of_nat (length B) ->
  let address := be_value (skipn 7 data) in
  addressAllowedToProgram P address (Z.of_nat (length B)) = true ->
  be_value (skipn 11 data) = crc32 P 0xFFFFFFFF B ->
  let s' := run_frames P (frames ++ [ (env, data) ]) s in
  let driver := iapProgram P address B (Z.of_nat (length B)) (flash s) in
  flash s' = snd driver /\
  lastError s' = to_u32 (fst driver) /\
  ramLocation s' = 0.
Proof.
  intros Hr Hun Hz Hall B Hroom Hop Hcount address Hal Hcrc s' driver.
  pose proof (reachable_inv P s Hr) as Hinv.
  destruct (send_stream_memcpy P frames Hall s Hinv Hun
              ltac:(rewrite Hz; exact Hroom)) as [_ [K2 [K3 K4]]].
  fold B in K2.
  destruct Hinv as [_ [_ [_ Hlen]]].
  unfold s', run_frames. rewrite fold_left_app. cbn [fold_left fst snd].
  fold (run_frames P frames s).
  set (s1 := run_frames P frames s) in *.
  assert (Hstaged : ram_bytes env s1 (Z.of_nat (length B)) = B).
  { rewrite ram_bytes_firstn.
    - rewrite K2, Hz, Nat2Z.id. cbn [Z.to_nat].
      apply memcpy_zero_firstn. rewrite Hlen. unfold RAM_CAP in *. lia.
    - rewrite K2, memcpy_length. exact Hlen.
    - lia. }
  rewrite handle_state, (run_PROGRAM _ _ _ _ Hop).
  unfold case_UPD_PROGRAM. st_simpl.
  change (3 + 4)%nat with 7%nat. change (7 + 4)%nat with 11%nat.
  rewrite !streamToUIn32_be. fold address.
  rewrite Hcount, Hcrc.
  ram_bytes_of s1. rewrite Hstaged, K4, Z.eqb_refl, Hal, Z.eqb_refl.
  st_simpl. rewrite K3. auto.
Qed.

(** X18, witness: five bytes and three bytes are sent to the unlocked demo
    device and programmed at 0x4000 with their CRC; the eight bytes are in
    flash afterwards. *)
Lemma stream_then_program_witness :
  let s' :=
    run_frames Demo.platform
      ([ (Demo.env_remote, Demo.send_five);
         (Demo.env_remote, Session.send_three) ]
       ++ [ (Demo.env_remote,
             Demo.frame x00 x02
               (Demo.be32 8 ++ Demo.be32 0x4000
                ++ Demo.be32
                     (crc32 Demo.platform 0xFFFFFFFF
                        [ xde; xad; xbe; xef; x2a; x01; x02; x03 ]))) ])
      Demo.unlocked in
  map (flash s')
    [ 0x4000; 0x4001; 0x4002; 0x4003; 0x4004; 0x4005; 0x4006; 0x4007 ]
  = [ xde; xad; xbe; xef; x2a; x01; x02; x03 ] /\
  lastError s' = 0 /\
  ramLocation s' = 0.
Proof.
  intros s'.
  destruct (stream_then_program Demo.platform
              [ (Demo.env_remote, Demo.send_five);
                (Demo.env_remote, Session.send_three) ]
              Demo.env_remote
              (Demo.frame x00 x02
                 (Demo.be32 8 ++ Demo.be32 0x4000
                  ++ Demo.be32
                       (crc32 Demo.platform 0xFFFFFFFF
                          [ xde; xad; xbe; xef; x2a; x01; x02; x03 ])))
              Demo.unlocked) as [Hf [He Hc]].
  - apply reach_frame. apply reach_boot.
  - reflexivity.
  - reflexivity.
  - repeat constructor.
  - vm_compute. reflexivity.
  - reflexivity.
  - vm_compute. reflexivity.
  - vm_compute. reflexivity.
  - vm_compute. reflexivity.
  - fold s' in Hf, He, Hc.
    split; [rewrite Hf; vm_compute; reflexivity|].
    split; [rewrite He; vm_compute; reflexivity | exact Hc].
Defined.

(** ** Decoding and validating *)

Lemma u8_inj (a b : byte) : u8 a = u8 b -> a = b.
Proof.
  unfold u8. intros H. apply N2Z.inj in H.
  pose proof (Byte.of_to_N a) as Ha. rewrite H, Byte.of_to_N in Ha.
  congruence.
Qed.

(** X19. [streamToUIn32] yields a number below 2^32 that is determined by,
    and determines, the first four bytes it reads: two buffers decode to
    the same word exactly when they agree on positions 0 to 3. The word is
    the big-endian value of those bytes; in particular the four bytes
    [v >> 24, v >> 16, v >> 8, v] of a 32-bit [v], followed by anything,
    decode to [v]. *)
Theorem streamToUIn32_decodes (b1 b2 : list byte) (v : Z) (rest : list byte) :
  0 <= streamToUIn32 b1 < 2 ^ 32 /\
  (streamToUIn32 b1 = streamToUIn32 b2 <->
   forall i : nat, (i < 4)%nat -> nth i b1 x00 = nth i b2 x00) /\
  streamToUIn32 (Demo.be32 v ++ rest) = to_u32 v.
Proof.
  split; [apply to_u32_range|]. split.
  - rewrite !streamToUIn32_be. unfold be_value.
    pose proof (byte_at_range b1 0). pose proof (byte_at_range b1 1).
    pose proof (byte_at_range b1 2). pose proof (byte_at_range b1 3).
    pose proof (byte_at_range b2 0). pose proof (byte_at_range b2 1).
    pose proof (byte_at_range b2 2). pose proof (byte_at_range b2 3).
    split.
    + intros E i Hi.
      assert (E0 : byte_at b1 0 = byte_at b2 0) by lia.
      assert (E1 : byte_at b1 1 = byte_at b2 1) by lia.
      assert (E2 : byte_at b1 2 = byte_at b2 2) by lia.
      assert (E3 : byte_at b1 3 = byte_at b2 3) by lia.
      destruct i as [|[|[|[|i]]]]; try lia; apply u8_inj; assumption.
    + intros E. unfold byte_at.
      rewrite (E 0%nat), (E 1%nat), (E 2%nat), (E 3%nat) by lia.
      reflexivity.
  - rewrite streamToUIn32_be, <- u32_in_memory_le.
    unfold be_value, le_value, Demo.be32, u32_in_memory, byte_at.
    cbn [app nth]. lia.
Qed.

(** A 32-bit load is the little-endian value of its four bytes. *)
Lemma load_u32_le (mem : Flash) (a : Z) :
  load_u32 mem a
  = u8 (mem a) + 2 ^ 8 * u8 (mem (to_u32 (a + 1)))
    + 2 ^ 16 * u8 (mem (to_u32 (a + 2)))
    + 2 ^ 24 * u8 (mem (to_u32 (a + 3))).
Proof.
  unfold load_u32.
  pose proof (u8_range (mem a)) as H0.
  pose proof (u8_range (mem (to_u32 (a + 1)))) as H1.
  pose proof (u8_range (mem (to_u32 (a + 2)))) as H2.
  pose proof (u8_range (mem (to_u32 (a + 3)))) as H3.
  set (b0 := u8 (mem a)) in *.
  set (b1 := u8 (mem (to_u32 (a + 1)))) in *.
  set (b2 := u8 (mem (to_u32 (a + 2)))) in *.
  set (b3 := u8 (mem (to_u32 (a + 3)))) in *.
  rewrite (Z.lor_comm b0), (lor_shiftl_add b1 b0 8) by lia.
  rewrite (Z.lor_comm _ (Z.shiftl b2 16)),
    (lor_shiftl_add b2 (b1 * 2 ^ 8 + b0) 16) by lia.
  rewrite (Z.lor_comm _ (Z.shiftl b3 24)),
    (lor_shiftl_add b3 (b2 * 2 ^ 16 + (b1 * 2 ^ 8 + b0)) 24) by lia.
  lia.
Qed.

Lemma load_u32_range (mem : Flash) (a : Z) : 0 <= load_u32 mem a < 2 ^ 32.
Proof.
  rewrite load_u32_le.
  pose proof (u8_range (mem a)).
  pose proof (u8_range (mem (to_u32 (a + 1)))).
  pose proof (u8_range (mem (to_u32 (a + 2)))).
  pose proof (u8_range (mem (to_u32 (a + 3)))).
  lia.
Qed.

(** X20. The checksum rule of the vector table, solved for its last word:
    [checkVectorTable] accepts exactly when the eighth word at [start] is
    the two's complement, in 32 bits, of the sum of the first seven. For
    any seven words there is one and only one eighth word that passes. *)
Theorem checkVectorTable_last_word (mem : Flash) (start : Z) :
  let word i := load_u32 mem (to_u32 (start + 4 * Z.of_nat i)) in
  let first_seven :=
    word 0%nat + word 1%nat + word 2%nat + word 3%nat + word 4%nat
    + word 5%nat + word 6%nat in
  (checkVectorTable mem start = 1 <-> word 7%nat = to_u32 (- first_seven)) /\
  (checkVectorTable mem start = 0 <-> word 7%nat <> to_u32 (- first_seven)).
Proof.
  intros word first_seven.
  rewrite checkVectorTable_sum.
  assert (Hsum : vector_table_sum mem start = first_seven + word 7%nat).
  { unfold vector_table_sum, first_seven, word. cbn [seq map fold_right]. lia. }
  rewrite Hsum.
  pose proof (load_u32_range mem (to_u32 (start + 4 * Z.of_nat 7))) as Hr.
  fold (word 7%nat) in Hr.
  assert (Hiff : (first_seven + word 7%nat) mod 2 ^ 32 = 0
                 <-> word 7%nat = to_u32 (- first_seven)).
  { unfold to_u32.
    generalize dependent (word 7%nat). generalize first_seven. clear.
    intros S w Hw.
    pose proof (Z.div_mod (S + w) (2 ^ 32) ltac:(lia)) as E1.
    pose proof (Z.mod_pos_bound (S + w) (2 ^ 32) ltac:(lia)) as R1.
    pose proof (Z.div_mod (- S) (2 ^ 32) ltac:(lia)) as E2.
    pose proof (Z.mod_pos_bound (- S) (2 ^ 32) ltac:(lia)) as R2.
    split; intros H; lia. }
  destruct (Z.eqb_spec ((first_seven + word 7%nat) mod 2 ^ 32) 0) as [E|E].
  - split; split; intros H; try reflexivity; try discriminate.
    + apply Hiff. exact E.
    + exfalso. apply H, Hiff. exact E.
  - split; split; intros H; try reflexivity; try discriminate.
    + exfalso. apply E, Hiff. exact H.
    + intros K. apply E, Hiff. exact K.
Qed.

Lemma bytes_at_agree (m1 m2 : Flash) (a n : Z) :
  0 <= a -> a + n <= 2 ^ 32 ->
  agree_on m1 m2 a (a + n) ->
  bytes_at m1 a n = bytes_at m2 a n.
Proof.
  intros Ha Hn Hag. unfold bytes_at.
  apply map_ext_in. intros k Hk. apply in_seq in Hk.
  rewrite to_u32_small by lia. apply Hag. lia.
Qed.

Lemma load_u32_agree (m1 m2 : Flash) (a : Z) :
  0 <= a -> a + 4 <= 2 ^ 32 ->
  agree_on m1 m2 a (a + 4) ->
  load_u32 m1 a = load_u32 m2 a.
Proof.
  intros Ha Hn Hag. unfold load_u32.
  rewrite !to_u32_small by lia.
  rewrite (Hag a), (Hag (a + 1)), (Hag (a + 2)), (Hag (a + 3)) by lia.
  reflexivity.
Qed.

(** X21. What [checkApplication] reads. For a descriptor whose start does
    not exceed its end, the answer depends on memory only through the bytes
    from start to end and the eight words of the vector table at start:
    two memories that agree from start up to the larger of end and
    start + 32 get the same answer. Writing flash outside that range
    cannot make an application valid or invalid. *)
Theorem checkApplication_reads_only_application (P : Platform)
    (m1 m2 : Flash) (block : AppDescriptionBlock) :
  0 <= startAddress block <= endAddress block ->
  agree_on m1 m2 (startAddress block)
    (Z.max (endAddress block) (startAddress block + 32)) ->
  checkApplication P m1 block = checkApplication P m2 block.
Proof.
  intros Hord Hag. unfold checkApplication.
  destruct (Z.gtb_spec (startAddress block) 0x5000) as [_|H1]; [reflexivity|].
  destruct (Z.gtb_spec (endAddress block) 0x100000) as [_|H2]; [reflexivity|].
  destruct (Z.eqb_spec (startAddress block) (endAddress block)) as [_|_];
    [reflexivity|].
  rewrite (to_u32_small (endAddress block - startAddress block)) by lia.
  rewrite (bytes_at_agree m1 m2) by
    (try lia; intros a Ha; apply Hag; lia).
  assert (Hv : checkVectorTable m1 (startAddress block)
               = checkVectorTable m2 (startAddress block)).
  { rewrite !checkVectorTable_sum. unfold vector_table_sum.
    rewrite (map_ext_in
               (fun i => load_u32 m1 (to_u32 (startAddress block + 4 * Z.of_nat i)))
               (fun i => load_u32 m2 (to_u32 (startAddress block + 4 * Z.of_nat i))));
      [reflexivity|].
    intros i Hi. apply in_seq in Hi.
    rewrite to_u32_small by lia.
    apply load_u32_agree; try lia.
    intros a Ha. apply Hag. lia. }
  rewrite Hv. reflexivity.
Qed.

(** X21, witness: a byte changed at 0x6000 does not change the verdict on
    the application from 0x4000 to 0x4040, which is valid. *)
Lemma checkApplication_reads_only_application_witness :
  checkApplication Demo.platform Session.app_flash Session.app_block
  = checkApplication Demo.platform Session.app_flash_touched Session.app_block
  /\ checkApplication Demo.platform Session.app_flash Session.app_block = 1.
Proof.
  split; [|vm_compute; reflexivity].
  apply (checkApplication_reads_only_application Demo.platform
           Session.app_flash Session.app_flash_touched Session.app_block).
  - cbn. lia.
  - intros a Ha. cbn in Ha.
    unfold Session.app_flash_touched.
    destruct (Z.eqb_spec a 0x6000) as [E|_]; [lia | reflexivity].
Defined.

(** ** What a locked device answers, and where replies are written *)

Lemma run_command_locked_error P env data s :
  deviceLocked s <> DEVICE_UNLOCKED ->
  In (byte_at data 2)
     [ UPD_UNLOCK_DEVICE; UPD_REQUEST_UID; UPD_APP_VERSION_REQUEST;
       UPD_GET_LAST_ERROR ] \/
  0x100 <= lastError (run_command P env data s).
Proof.
  intros Hl. apply Z.eqb_neq in Hl. unfold run_command.
  destruct (Z.eqb_spec (byte_at data 2) UPD_UNLOCK_DEVICE) as [E|_];
    [left; rewrite E; simpl; auto|].
  destruct (Z.eqb_spec (byte_at data 2) UPD_REQUEST_UID) as [E|_];
    [left; rewrite E; simpl; auto|].
  destruct (Z.eqb_spec (byte_at data 2) UPD_APP_VERSION_REQUEST) as [E|_];
    [left; rewrite E; simpl; auto|].
  destruct (Z.eqb_spec (byte_at data 2) UPD_ERASE_SECTOR) as [_|_].
  { right. unfold case_UPD_ERASE_SECTOR. rewrite Hl. st_simpl.
    unfold UPD_DEVICE_LOCKED. lia. }
  destruct (Z.eqb_spec (byte_at data 2) UPD_SEND_DATA) as [_|_].
  { right. unfold case_UPD_SEND_DATA. rewrite Hl. st_simpl.
    unfold UPD_DEVICE_LOCKED. lia. }
  destruct (Z.eqb_spec (byte_at data 2) UPD_PROGRAM) as [_|_].
  { right. unfold case_UPD_PROGRAM. rewrite Hl. st_simpl.
    unfold UPD_DEVICE_LOCKED. lia. }
  destruct (Z.eqb_spec (byte_at data 2) UPD_UPDATE_BOOT_DESC) as [_|_].
  { right. unfold case_UPD_UPDATE_BOOT_DESC. rewrite Hl. st_simpl.
    unfold UPD_DEVICE_LOCKED. lia. }
  destruct (Z.eqb_spec (byte_at data 2) UPD_REQ_DATA) as [_|_].
  { right. unfold case_UPD_REQ_DATA. rewrite Hl. st_simpl.
    unfold UPD_DEVICE_LOCKED. lia. }
  destruct (Z.eqb_spec (byte_at data 2) UPD_GET_LAST_ERROR) as [E|_];
    [left; rewrite E; simpl; auto|].
  right. st_simpl. unfold UDP_UNKONW_COMMAND. lia.
Qed.

(** X22. A device that is not unlocked ACKs nothing but the four commands
    that are not lock-gated: an ACK from it means the frame was an
    [UPD_UNLOCK_DEVICE], [UPD_REQUEST_UID], [UPD_APP_VERSION_REQUEST] or
    [UPD_GET_LAST_ERROR]. *)
Theorem locked_device_acks_only_ungated (P : Platform) (env : Env)
    (data : list byte) (s : State) :
  deviceLocked s <> DEVICE_UNLOCKED ->
  fst (handleMemoryRequests P env data s) = T_ACK_PDU ->
  In (byte_at data 2)
     [ UPD_UNLOCK_DEVICE; UPD_REQUEST_UID; UPD_APP_VERSION_REQUEST;
       UPD_GET_LAST_ERROR ].
Proof.
  intros Hl Hack.
  destruct (run_command_locked_error P env data
              (set_pinInfo (negb (pinInfo s)) s) Hl) as [Hin | Herr];
    [exact Hin|].
  rewrite <- handle_state in Herr.
  rewrite (handle_nack _ _ _ _ Herr) in Hack. discriminate.
Qed.

(** X22, witness: the locked demo device ACKs the read of its error. *)
Lemma locked_device_acks_only_ungated_witness :
  In (byte_at Demo.get_last_error 2)
     [ UPD_UNLOCK_DEVICE; UPD_REQUEST_UID; UPD_APP_VERSION_REQUEST;
       UPD_GET_LAST_ERROR ].
Proof.
  apply (locked_device_acks_only_ungated Demo.platform Demo.env_remote
           Demo.get_last_error Demo.after_wrong_unlock).
  - vm_compute. discriminate.
  - vm_compute. reflexivity.
Defined.

Lemma tel_set_other (t : Telegram) (j : nat) (b : byte) (i : nat) :
  i <> j -> tel_set t j b i = t i.
Proof.
  intros H. unfold tel_set.
  destruct (Nat.eqb_spec i j); [contradiction | reflexivity].
Qed.

Lemma tel_memcpy_outside (src : list byte) (t : Telegram) (off i : nat) :
  (i < off \/ off + length src <= i)%nat ->
  tel_memcpy t off src i = t i.
Proof.
  revert t off. induction src as [|b src IH]; intros t off H.
  - reflexivity.
  - cbn [tel_memcpy length] in *.
    rewrite IH by lia. apply tel_set_other. lia.
Qed.

Lemma prepare_outside (count cmd : Z) (s : State) (i : nat) :
  (i < 5 \/ 10 <= i)%nat ->
  sendTelegram (_prepareReturnTelegram count cmd s) i = sendTelegram s i.
Proof.
  intros H. unfold _prepareReturnTelegram. st_simpl.
  rewrite !tel_set_other by lia. reflexivity.
Qed.

Lemma run_command_telegram P env data s (i : nat) :
  (i < 5 \/ 22 <= i)%nat ->
  sendTelegram (run_command P env data s) i = sendTelegram s i.
Proof.
  intros Hi. unfold run_command.
  destruct (Z.eqb_spec (byte_at data 2) UPD_UNLOCK_DEVICE) as [_|_].
  { unfold case_UPD_UNLOCK_DEVICE.
    destruct (negb (progPinStatus env)); [reflexivity|].
    destruct (IAP_SUCCESS P =? fst (iapReadUID env)); [sweep_cases|];
      split_ifs; reflexivity. }
  destruct (Z.eqb_spec (byte_at data 2) UPD_REQUEST_UID) as [_|_].
  { unfold case_UPD_REQUEST_UID. split_ifs; try reflexivity.
    st_simpl.
    rewrite tel_memcpy_outside by (rewrite frame_bytes_length; lia).
    rewrite prepare_outside by lia. reflexivity. }
  destruct (Z.eqb_spec (byte_at data 2) UPD_APP_VERSION_REQUEST) as [_|_].
  { unfold case_UPD_APP_VERSION_REQUEST. split_ifs; try reflexivity.
    st_simpl.
    rewrite tel_memcpy_outside
      by (unfold bytes_at; rewrite length_map, length_seq; lia).
    rewrite prepare_outside by lia. reflexivity. }
  destruct (Z.eqb_spec (byte_at data 2) UPD_ERASE_SECTOR) as [_|_].
  { unfold_cases. split_ifs; reflexivity. }
  destruct (Z.eqb_spec (byte_at data 2) UPD_SEND_DATA) as [_|_].
  { unfold_cases. split_ifs; reflexivity. }
  destruct (Z.eqb_spec (byte_at data 2) UPD_PROGRAM) as [_|_].
  { unfold_cases. split_ifs; reflexivity. }
  destruct (Z.eqb_spec (byte_at data 2) UPD_UPDATE_BOOT_DESC) as [_|_].
  { unfold_cases. split_ifs; reflexivity. }
  destruct (Z.eqb_spec (byte_at data 2) UPD_REQ_DATA) as [_|_].
  { unfold_cases. split_ifs; reflexivity. }
  destruct (Z.eqb_spec (byte_at data 2) UPD_GET_LAST_ERROR) as [_|_].
  { unfold case_UPD_GET_LAST_ERROR. st_simpl.
    rewrite tel_memcpy_outside by (cbn [u32_in_memory length]; lia).
    rewrite prepare_outside by lia. reflexivity. }
  reflexivity.
Qed.

(** X23. Whatever the frame, the dispatcher writes the outbound telegram
    only at bytes 5 to 21: the five header bytes of
    [_prepareReturnTelegram] and at most twelve payload bytes. Bytes 0 to 4
    and everything from byte 22 on are left as the caller had them. *)
Theorem telegram_written_only_5_to_21 (P : Platform) (env : Env)
    (data : list byte) (s : State) (i : nat) :
  (i < 5 \/ 22 <= i)%nat ->
  sendTelegram (snd (handleMemoryRequests P env data s)) i = sendTelegram s i.
Proof.
  intros Hi. rewrite handle_state.
  apply (run_command_telegram P env data (set_pinInfo (negb (pinInfo s)) s) i).
  exact Hi.
Qed.

(** X23, witness: byte 4 of the telegram after the demo device answered a
    request for its ID. *)
Lemma telegram_written_only_5_to_21_witness :
  sendTelegram
    (snd (handleMemoryRequests Demo.platform Demo.env_operator
            Session.request_uid Demo.at_reset)) 4%nat
  = sendTelegram Demo.at_reset 4%nat.
Proof.
  apply (telegram_written_only_5_to_21 Demo.platform Demo.env_operator
           Session.request_uid Demo.at_reset 4%nat).
  left. lia.
Defined.

(** ** The answer and the error register *)

Lemma unlock_without_mismatch_dec P env data :
  unlock_without_mismatch P env data \/
  byte_at data 2 <> UPD_UNLOCK_DEVICE \/
  progPinStatus env = false \/
  (fst (iapReadUID env) = IAP_SUCCESS P /\
   uid_mismatch data (snd (iapReadUID env))).
Proof.
  unfold unlock_without_mismatch.
  destruct (Z.eq_dec (byte_at data 2) UPD_UNLOCK_DEVICE) as [Hop|Hop];
    [|auto].
  destruct (progPinStatus env); [|auto].
  destruct (Z.eq_dec (fst (iapReadUID env)) (IAP_SUCCESS P)) as [Hr|Hr];
    [|left; repeat split; auto; intros [K _]; contradiction].
  destruct (uid_mismatch_dec data (snd (iapReadUID env))) as [Hm|Hm];
    [auto|].
  left. repeat split; auto. intros [_ K]. contradiction.
Qed.

(** Outside the unlock frames that record no mismatch, every case of the
    switch stores into [lastError] a value that does not depend on the one
    found there. *)
Lemma run_command_overwrites P env data s (e : Z) :
  byte_at data 2 <> UPD_UNLOCK_DEVICE \/
  progPinStatus env = false \/
  (fst (iapReadUID env) = IAP_SUCCESS P /\
   uid_mismatch data (snd (iapReadUID env))) ->
  lastError (run_command P env data (set_lastError e s))
  = lastError (run_command P env data s).
Proof.
  intros Hcase. unfold run_command.
  destruct (Z.eqb_spec (byte_at data 2) UPD_UNLOCK_DEVICE) as [Hop|_].
  { unfold case_UPD_UNLOCK_DEVICE.
    destruct Hcase as [Hno | [Hpin | [Hread Hm]]]; [contradiction | |].
    - rewrite Hpin. reflexivity.
    - destruct (negb (progPinStatus env)); [reflexivity|].
      rewrite Hread, Z.eqb_refl, !(uid_sweep_mismatch _ _ _ Hm).
      st_simpl. rewrite Z.eqb_refl. reflexivity. }
  destruct (Z.eqb_spec (byte_at data 2) UPD_REQUEST_UID) as [_|_].
  { unfold_cases. inner_ifs; reflexivity. }
  destruct (Z.eqb_spec (byte_at data 2) UPD_APP_VERSION_REQUEST) as [_|_].
  { unfold_cases. inner_ifs; reflexivity. }
  destruct (Z.eqb_spec (byte_at data 2) UPD_ERASE_SECTOR) as [_|_].
  { unfold_cases. inner_ifs; reflexivity. }
  destruct (Z.eqb_spec (byte_at data 2) UPD_SEND_DATA) as [_|_].
  { unfold_cases. inner_ifs; reflexivity. }
  destruct (Z.eqb_spec (byte_at data 2) UPD_PROGRAM) as [_|_].
  { unfold_cases. st_simpl. ram_bytes_of s.
    inner_ifs; ram_bytes_of s; inner_ifs; reflexivity. }
  destruct (Z.eqb_spec (byte_at data 2) UPD_UPDATE_BOOT_DESC) as [_|_].
  { unfold_cases. st_simpl. ram_bytes_of s.
    inner_ifs; ram_bytes_of s; inner_ifs; reflexivity. }
  destruct (Z.eqb_spec (byte_at data 2) UPD_REQ_DATA) as [_|_].
  { unfold_cases. inner_ifs; reflexivity. }
  destruct (Z.eqb_spec (byte_at data 2) UPD_GET_LAST_ERROR) as [_|_].
  { reflexivity. }
  reflexivity.
Qed.

(** C8 (as amended). Every call of the dispatcher returns, and its answer
    is decided by the [lastError] it leaves: ACK exactly when [lastError]
    is the success code, NACK otherwise. Every frame writes [lastError],
    leaving a value that does not depend on the one found there, except an
    [UPD_UNLOCK_DEVICE] frame received with the program pin deasserted that
    records no mismatch. A frame whose opcode has no case in the switch
    leaves [lastError = UDP_UNKONW_COMMAND], which is 0x100, and is
    NACKed. *)
Theorem ack_iff_success (P : Platform) (env : Env) (data : list byte)
    (s : State) :
  let r := handleMemoryRequests P env data s in
  (fst r = T_ACK_PDU <-> lastError (snd r) = IAP_SUCCESS P) /\
  (fst r = T_NACK_PDU <-> lastError (snd r) <> IAP_SUCCESS P) /\
  (~ unlock_without_mismatch P env data -> overwrites_lastError P env data s) /\
  (~ In (byte_at data 2) handled_opcodes ->
   lastError (snd r) = UDP_UNKONW_COMMAND /\ fst r = T_NACK_PDU) /\
  UDP_UNKONW_COMMAND = 0x100.
Proof.
  intros r.
  pose proof (handle_pdu P env data s) as Hp. fold r in Hp.
  split; [|split; [|split; [|split; [|reflexivity]]]].
  - rewrite Hp.
    destruct (Z.eqb_spec (lastError (snd r)) (IAP_SUCCESS P)) as [E|E];
      split; intros H; try assumption; try reflexivity;
      [discriminate | contradiction].
  - rewrite Hp.
    destruct (Z.eqb_spec (lastError (snd r)) (IAP_SUCCESS P)) as [E|E];
      split; intros H; try assumption; try reflexivity;
      [discriminate | contradiction].
  - intros Hnot e.
    destruct (unlock_without_mismatch_dec P env data) as [Hu | Hcase];
      [contradiction|].
    rewrite !handle_state.
    apply (run_command_overwrites P env data
             (set_pinInfo (negb (pinInfo s)) s) e Hcase).
  - intros Hop.
    assert (He : lastError (snd r) = UDP_UNKONW_COMMAND).
    { unfold r. rewrite handle_state, (run_default _ _ _ _ Hop). reflexivity. }
    split; [exact He|].
    apply handle_nack. fold r. rewrite He. unfold UDP_UNKONW_COMMAND. lia.
Qed.

(** C8, witness: opcode 100 ([UPD_SET_EMULATION], compiled out) is answered
    with a NACK and the unknown-command code, whatever [lastError] held; an
    [UPD_REQ_DATA] frame overwrites [lastError] too. *)
Lemma ack_iff_success_witness :
  (let r := handleMemoryRequests Demo.platform Demo.env_remote
              Demo.set_emulation Demo.unlocked in
   lastError (snd r) = 0x100 /\ fst r = T_NACK_PDU) /\
  overwrites_lastError Demo.platform Demo.env_remote Demo.set_emulation
    Demo.unlocked /\
  overwrites_lastError Demo.platform Demo.env_remote Session.req_data
    Demo.after_wrong_unlock.
Proof.
  split; [|split].
  - destruct (ack_iff_success Demo.platform Demo.env_remote Demo.set_emulation
                Demo.unlocked) as [_ [_ [_ [H _]]]].
    apply H. vm_compute. intuition discriminate.
  - destruct (ack_iff_success Demo.platform Demo.env_remote Demo.set_emulation
                Demo.unlocked) as [_ [_ [H _]]].
    apply H. intros [Hop _]. vm_compute in Hop. discriminate.
  - destruct (ack_iff_success Demo.platform Demo.env_remote Session.req_data
                Demo.after_wrong_unlock) as [_ [_ [H _]]].
    apply H. intros [Hop _]. vm_compute in Hop. discriminate.
Defined.

(** C8, counterexample. The demo device after one failed unlock attempt, a
    reachable state, receives an unlock frame with the right ID: no
    statement of the case stores into [lastError]; the state left is the
    state found with only the info pin toggled, and the value left in
    [lastError] is the stale [UPD_UID_MISSMATCH], where 0 found there would
    have been left as the success code. *)
Lemma overwrites_lastError_fails :
  reachable Demo.platform Demo.after_wrong_unlock /\
  snd (handleMemoryRequests Demo.platform Demo.env_remote Demo.unlock_right
         Demo.after_wrong_unlock)
  = set_pinInfo (negb (pinInfo Demo.after_wrong_unlock))
      Demo.after_wrong_unlock /\
  ~ overwrites_lastError Demo.platform Demo.env_remote Demo.unlock_right
      Demo.after_wrong_unlock.
Proof.
  split; [apply reach_frame; apply reach_boot|]. split.
  - rewrite (unlock_remote_state Demo.platform Demo.env_remote
               Demo.unlock_right Demo.after_wrong_unlock eq_refl eq_refl).
    cbv zeta.
    assert (Hno : ~ uid_mismatch Demo.unlock_right
                      (snd (iapReadUID Demo.env_remote))).
    { intros [i [Hi Hne]]. apply Hne.
      do 12 (destruct i as [|i]; [reflexivity|]). lia. }
    change (IAP_SUCCESS Demo.platform =? fst (iapReadUID Demo.env_remote))
      with true. cbv iota.
    rewrite (uid_sweep_match _ _ _ Hno). reflexivity.
  - intros H. specialize (H 0). vm_compute in H. discriminate.
Qed.
